(** * HTTP header storage: a model of [twisted.web.http_headers]

    The module stores HTTP headers as a dictionary from lower-cased byte
    names to lists of byte values ([Headers]), and wraps it in a
    single-valued mapping view ([_DictHeaders]).

    The development has three layers:
    - [Py]: the part of the Python 3 runtime the module calls (byte and text
      strings, the two codecs, [dict], [sorted], comparison of lists and
      tuples, exceptions);
    - [_dashCapitalize], [Headers], [_DictHeaders]: the module itself, one
      definition per function or method, under the name it has in the
      source;
    - the properties of the module.

    A method that changes the header object takes the object and returns
    the changed one; a call that raises returns the exception instead. *)

From Stdlib Require Import List String Ascii NArith ZArith Bool Lia.
From Stdlib Require Import Permutation Sorted.
Import ListNotations.

Local Open Scope string_scope.
Local Open Scope list_scope.

(* ================================================================== *)
(** * The Python runtime *)
(* ================================================================== *)

Module Py.

(** ** Exceptions and results *)

(** The exception classes the module can raise or let through. *)
Inductive exn : Type :=
| TypeError
| KeyError
| IndexError
| AttributeError
| UnicodeEncodeError
| UnicodeDecodeError.

(** A call either returns a value or raises. *)
Inductive result (A : Type) : Type :=
| Ok (a : A)
| Raise (e : exn).

Arguments Ok {A} a.
Arguments Raise {A} e.

Definition bind {A B : Type} (r : result A) (k : A -> result B) : result B :=
  match r with
  | Ok a => k a
  | Raise e => Raise e
  end.

(** A loop that appends [f x] for every [x], stopping at the first raise. *)
Fixpoint mapM {A B : Type} (f : A -> result B) (l : list A) : result (list B) :=
  match l with
  | [] => Ok []
  | x :: r => bind (f x) (fun y => bind (mapM f r) (fun ys => Ok (y :: ys)))
  end.

(** ** Strings *)

(** [bytes] is a sequence of 8-bit characters; [str] (the module's
    [unicode]) is a sequence of code points. *)
Definition bytes : Type := string.
Definition unicode : Type := list N.

(** A header name or value: the module accepts both kinds everywhere.
    ([unicode], which the module imports from [twisted.python.compat], is
    the text type.) *)
Inductive pystr : Type :=
| Bytes (b : bytes)
| Text (u : unicode).

(** The objects a caller can pass where the module expects a list of
    values or a default.  The elements of a list or tuple are strings, as
    the docstrings type them. *)
Inductive object : Type :=
| PyNone
| PyStr (s : pystr)
| PyInt (z : Z)
| PyTuple (l : list pystr)
| PyList (l : list pystr).

(** [isinstance(o, list)] and [type(o) is list] (no subclass of [list] is
    modelled, so the two agree). *)
Definition is_list (o : object) : bool :=
  match o with
  | PyList _ => true
  | _ => false
  end.

(** ** Case conversion of bytes: ASCII letters only *)

Definition is_ascii_upper (a : ascii) : bool :=
  ((65 <=? N_of_ascii a) && (N_of_ascii a <=? 90))%N.

Definition is_ascii_lower (a : ascii) : bool :=
  ((97 <=? N_of_ascii a) && (N_of_ascii a <=? 122))%N.

Definition ascii_lower (a : ascii) : ascii :=
  if is_ascii_upper a then ascii_of_N (N_of_ascii a + 32) else a.

Definition ascii_upper (a : ascii) : ascii :=
  if is_ascii_lower a then ascii_of_N (N_of_ascii a - 32) else a.

Fixpoint bytes_map (f : ascii -> ascii) (s : bytes) : bytes :=
  match s with
  | EmptyString => EmptyString
  | String c r => String (f c) (bytes_map f r)
  end.

(** [b.lower()] and [b.upper()]. *)
Definition bytes_lower (s : bytes) : bytes := bytes_map ascii_lower s.
Definition bytes_upper (s : bytes) : bytes := bytes_map ascii_upper s.

(** [b.capitalize()]: first byte upper-cased, the others lower-cased. *)
Definition bytes_capitalize (s : bytes) : bytes :=
  match s with
  | EmptyString => EmptyString
  | String c r => String (ascii_upper c) (bytes_lower r)
  end.

(** [b.split(sep)] for a one-byte separator: never an empty list, an empty
    word for every separator at an end or next to another one. *)
Fixpoint bytes_split (sep : ascii) (s : bytes) : list bytes :=
  match s with
  | EmptyString => [EmptyString]
  | String c r =>
      if Ascii.eqb c sep then EmptyString :: bytes_split sep r
      else match bytes_split sep r with
           | w :: ws => String c w :: ws
           | [] => [String c EmptyString]
           end
  end.

(** [sep.join(words)]. *)
Fixpoint bytes_join (sep : ascii) (words : list bytes) : bytes :=
  match words with
  | [] => EmptyString
  | [w] => w
  | w :: ws => String.append w (String sep (bytes_join sep ws))
  end.

(** ** Case conversion of text

    [str.lower()] follows the Unicode case mapping.  The model is exact on
    U+0000..U+00FF and on the four code points above U+00FF whose lower case
    is below U+0100 (U+0178, U+1E9E, the Kelvin sign U+212A and the Angstrom
    sign U+212B).  Every other code point lowers to code points above
    U+00FF; the module only ever encodes a lowered name with ISO-8859-1,
    which rejects all of them alike, so they are left in place. *)
Definition cp_lower (c : N) : N :=
  (if (65 <=? c) && (c <=? 90) then c + 32
   else if (192 <=? c) && (c <=? 222) && negb (c =? 215) then c + 32
   else if c =? 376 then 255
   else if c =? 7838 then 223
   else if c =? 8490 then 107
   else if c =? 8491 then 229
   else c)%N.

Definition unicode_lower (u : unicode) : unicode := map cp_lower u.

(** [s.lower()] on either kind of string. *)
Definition lower (s : pystr) : pystr :=
  match s with
  | Bytes b => Bytes (bytes_lower b)
  | Text u => Text (unicode_lower u)
  end.

(** [isinstance(s, unicode)]. *)
Definition is_unicode (s : pystr) : bool :=
  match s with
  | Text _ => true
  | Bytes _ => false
  end.

(** ** The ISO-8859-1 codec *)

(** [u.encode('iso-8859-1')]: one byte per code point, none above U+00FF. *)
Fixpoint latin1_encode (u : unicode) : result bytes :=
  match u with
  | [] => Ok EmptyString
  | c :: r =>
      if (c <? 256)%N
      then bind (latin1_encode r) (fun s => Ok (String (ascii_of_N c) s))
      else Raise UnicodeEncodeError
  end.

(** [b.decode('iso-8859-1')]: total. *)
Fixpoint latin1_decode (b : bytes) : unicode :=
  match b with
  | EmptyString => []
  | String c r => N_of_ascii c :: latin1_decode r
  end.

(** ** The UTF-8 codec (strict error handler) *)

(** The bytes of one code point, or nothing for a surrogate
    (U+D800..U+DFFF) and for a number that is no code point. *)
Definition utf8_encode_cp (c : N) : option (list ascii) :=
  (if c <? 128 then Some [ascii_of_N c]
   else if c <? 2048 then
     Some [ascii_of_N (192 + c / 64); ascii_of_N (128 + c mod 64)]
   else if c <? 65536 then
     if (55296 <=? c) && (c <=? 57343) then None
     else Some [ascii_of_N (224 + c / 4096);
                ascii_of_N (128 + (c / 64) mod 64);
                ascii_of_N (128 + c mod 64)]
   else if c <? 1114112 then
     Some [ascii_of_N (240 + c / 262144);
           ascii_of_N (128 + (c / 4096) mod 64);
           ascii_of_N (128 + (c / 64) mod 64);
           ascii_of_N (128 + c mod 64)]
   else None)%N.

Fixpoint prepend (l : list ascii) (s : bytes) : bytes :=
  match l with
  | [] => s
  | c :: r => String c (prepend r s)
  end.

(** [u.encode('utf8')]. *)
Fixpoint utf8_encode (u : unicode) : result bytes :=
  match u with
  | [] => Ok EmptyString
  | c :: r =>
      match utf8_encode_cp c with
      | Some bs => bind (utf8_encode r) (fun s => Ok (prepend bs s))
      | None => Raise UnicodeEncodeError
      end
  end.

(** A continuation byte, 10xxxxxx. *)
Definition is_cont (a : ascii) : bool :=
  ((128 <=? N_of_ascii a) && (N_of_ascii a <? 192))%N.

(** The six payload bits of a continuation byte. *)
Definition cont_bits (a : ascii) : N := (N_of_ascii a - 128)%N.

(** [b.decode('utf8')]: a lead byte announces the length of its sequence;
    a sequence is refused when a continuation byte is missing, when it is
    longer than its code point needs, when it gives a surrogate and when it
    goes past U+10FFFF. *)
Fixpoint utf8_decode (s : bytes) : result unicode :=
  match s with
  | EmptyString => Ok []
  | String c0 s1 =>
      let b0 := N_of_ascii c0 in
      if (b0 <? 128)%N then
        bind (utf8_decode s1) (fun u => Ok (b0 :: u))
      else if (b0 <? 192)%N then Raise UnicodeDecodeError
      else if (b0 <? 224)%N then
        match s1 with
        | String c1 s2 =>
            let cp := ((b0 - 192) * 64 + cont_bits c1)%N in
            if is_cont c1 && (128 <=? cp)%N
            then bind (utf8_decode s2) (fun u => Ok (cp :: u))
            else Raise UnicodeDecodeError
        | _ => Raise UnicodeDecodeError
        end
      else if (b0 <? 240)%N then
        match s1 with
        | String c1 (String c2 s3) =>
            let cp := ((b0 - 224) * 4096 + cont_bits c1 * 64
                       + cont_bits c2)%N in
            if is_cont c1 && is_cont c2 && (2048 <=? cp)%N
               && negb ((55296 <=? cp) && (cp <=? 57343))%N
            then bind (utf8_decode s3) (fun u => Ok (cp :: u))
            else Raise UnicodeDecodeError
        | _ => Raise UnicodeDecodeError
        end
      else if (b0 <? 248)%N then
        match s1 with
        | String c1 (String c2 (String c3 s4)) =>
            let cp := ((b0 - 240) * 262144 + cont_bits c1 * 4096
                       + cont_bits c2 * 64 + cont_bits c3)%N in
            if is_cont c1 && is_cont c2 && is_cont c3
               && (65536 <=? cp)%N && (cp <? 1114112)%N
            then bind (utf8_decode s4) (fun u => Ok (cp :: u))
            else Raise UnicodeDecodeError
        | _ => Raise UnicodeDecodeError
        end
      else Raise UnicodeDecodeError
  end.

(** ** Dictionaries with byte-string keys

    A [dict] keeps its entries in insertion order, one entry per key. *)
Definition dict (V : Type) : Type := list (bytes * V).

(** [d.get(k)], with [None] for a missing key. *)
Fixpoint dict_get {V : Type} (k : bytes) (d : dict V) : option V :=
  match d with
  | [] => None
  | (k', v) :: r => if String.eqb k k' then Some v else dict_get k r
  end.

(** [k in d]. *)
Definition dict_contains {V : Type} (k : bytes) (d : dict V) : bool :=
  match dict_get k d with
  | Some _ => true
  | None => false
  end.

(** [d[k] = v]: a present key keeps its place, a new one goes last. *)
Fixpoint dict_set {V : Type} (k : bytes) (v : V) (d : dict V) : dict V :=
  match d with
  | [] => [(k, v)]
  | (k', v') :: r =>
      if String.eqb k k' then (k, v) :: r else (k', v') :: dict_set k v r
  end.

(** [d.pop(k, None)], for its effect on [d]. *)
Fixpoint dict_pop {V : Type} (k : bytes) (d : dict V) : dict V :=
  match d with
  | [] => []
  | (k', v') :: r =>
      if String.eqb k k' then dict_pop k r else (k', v') :: dict_pop k r
  end.

(** [d.items()], in iteration order. *)
Definition dict_items {V : Type} (d : dict V) : list (bytes * V) := d.

Definition dict_keys {V : Type} (d : dict V) : list bytes := map fst d.

(** ** Comparison *)

(** [a < b] on bytes: by byte value, a proper prefix first. *)
Fixpoint bytes_ltb (a b : bytes) : bool :=
  match a, b with
  | _, EmptyString => false
  | EmptyString, String _ _ => true
  | String x a', String y b' =>
      if Ascii.eqb x y then bytes_ltb a' b'
      else (N_of_ascii x <? N_of_ascii y)%N
  end.

(** [a == b] on lists, from [==] on the elements. *)
Fixpoint list_eqb {A : Type} (eqb : A -> A -> bool) (a b : list A) : bool :=
  match a, b with
  | [], [] => true
  | x :: a', y :: b' => eqb x y && list_eqb eqb a' b'
  | _, _ => false
  end.

(** [a < b] on lists: decided by [<] at the first place where the
    elements are not [==], or by the lengths when there is none. *)
Fixpoint list_ltb {A : Type} (eqb ltb : A -> A -> bool) (a b : list A)
  : bool :=
  match a, b with
  | _, [] => false
  | [], _ :: _ => true
  | x :: a', y :: b' =>
      if eqb x y then list_ltb eqb ltb a' b' else ltb x y
  end.

(** An entry of [Headers._rawHeaders.items()]: a 2-tuple. *)
Definition item : Type := (bytes * list bytes)%type.

Definition values_eqb : list bytes -> list bytes -> bool :=
  list_eqb String.eqb.

Definition values_ltb : list bytes -> list bytes -> bool :=
  list_ltb String.eqb bytes_ltb.

(** [==] and [<] on 2-tuples compare the first components, and the second
    ones when the first are equal. *)
Definition item_eqb (a b : item) : bool :=
  String.eqb (fst a) (fst b) && values_eqb (snd a) (snd b).

Definition item_ltb (a b : item) : bool :=
  if String.eqb (fst a) (fst b) then values_ltb (snd a) (snd b)
  else bytes_ltb (fst a) (fst b).

(** [sorted(l)]: the sort is stable and uses [<] only.  It is modelled as
    an insertion sort, from the right, that puts an element after those
    which are below it and before all the others. *)
Fixpoint sorted_insert (x : item) (l : list item) : list item :=
  match l with
  | [] => [x]
  | y :: r => if item_ltb y x then y :: sorted_insert x r else x :: y :: r
  end.

Fixpoint sorted (l : list item) : list item :=
  match l with
  | [] => []
  | x :: r => sorted_insert x (sorted r)
  end.

End Py.

Export Py.

Declare Scope py_scope.
Delimit Scope py_scope with py.
Notation "x <- e ;; k" := (Py.bind e (fun x => k))
  (at level 61, e at next level, right associativity) : py_scope.
Local Open Scope py_scope.

(** ** The mapping protocol

    [_DictHeaders] derives from [collections.MutableMapping], which gives
    it [in] and [items()] from its own [__getitem__] and [__iter__], and it
    builds a [dict] from pairs. *)

Module Mapping.

(** [key in m]: [m[key]] is tried, and only the missing-key error is
    turned into [False]. *)
Definition __contains__ (getitem : pystr -> result object) (key : pystr)
  : result bool :=
  match getitem key with
  | Ok _ => Ok true
  | Raise KeyError => Ok false
  | Raise e => Raise e
  end.

(** [m.items()]: every key of the iteration with [m[key]]. *)
Definition items (iter : result (list pystr))
           (getitem : pystr -> result object)
  : result (list (pystr * object)) :=
  keys <- iter ;;
  mapM (fun key => value <- getitem key ;; Ok (key, value)) keys.

End Mapping.

(** [a == b] on strings: bytes and text are never equal. *)
Definition pystr_eqb (a b : pystr) : bool :=
  match a, b with
  | Bytes x, Bytes y => String.eqb x y
  | Text x, Text y => list_eqb N.eqb x y
  | _, _ => false
  end.

(** A built-in [dict] whose keys are strings of either kind. *)
Definition pydict : Type := list (pystr * object).

Fixpoint pydict_set (k : pystr) (v : object) (d : pydict) : pydict :=
  match d with
  | [] => [(k, v)]
  | (k', v') :: r =>
      if pystr_eqb k k' then (k, v) :: r else (k', v') :: pydict_set k v r
  end.

(** [dict(pairs)]: the pairs are assigned in order. *)
Definition pydict_of (pairs : list (pystr * object)) : pydict :=
  fold_left (fun d kv => pydict_set (fst kv) (snd kv) d) pairs [].

(* ================================================================== *)
(** * The module *)
(* ================================================================== *)

(** [_dashCapitalize(name)]: capitalize every word of [name], the words
    being separated by ['-']. *)
Definition _dashCapitalize (name : bytes) : bytes :=
  bytes_join "-"%char (map bytes_capitalize (bytes_split "-"%char name)).

(** Modelled from the spec: [cmp] of [twisted.python.compat] is not part of
    the source at hand.  It is the three-way comparison: negative when
    [a < b], zero when [a == b], positive otherwise.  The module applies
    it to sorted lists of items. *)
Definition cmp (a b : list item) : Z :=
  if list_ltb item_eqb item_ltb a b then (-1)%Z
  else if list_eqb item_eqb a b then 0%Z
  else 1%Z.

Module Headers.

(** An instance: its only attribute is the dictionary from names to lists
    of values, both as bytes. *)
Record t : Type := mk { _rawHeaders : dict (list bytes) }.

(** The class attribute [_caseMappings]. *)
Definition _caseMappings : dict bytes :=
  [ ("content-md5", "Content-MD5");
    ("dnt", "DNT");
    ("etag", "ETag");
    ("p3p", "P3P");
    ("te", "TE");
    ("www-authenticate", "WWW-Authenticate");
    ("x-xss-protection", "X-XSS-Protection") ].

Definition _decodeName (name : bytes) : unicode := latin1_decode name.

Definition _encodeName (name : pystr) : result bytes :=
  match name with
  | Text u => latin1_encode u
  | Bytes b => Ok b
  end.

Definition _encodeValue (value : pystr) : result bytes :=
  match value with
  | Text u => utf8_encode u
  | Bytes b => Ok b
  end.

Definition _encodeValues (values : list pystr) : result (list bytes) :=
  mapM _encodeValue values.

(** [value.decode('utf8')] on an element of a list: text has no [decode]
    method. *)
Definition decode_value (value : pystr) : result unicode :=
  match value with
  | Bytes b => utf8_decode b
  | Text _ => Raise AttributeError
  end.

Definition _decodeValues (values : object) : result object :=
  match values with
  | PyList l =>
      newValues <- mapM decode_value l ;;
      Ok (PyList (map Text newValues))
  | _ => Ok values
  end.

Definition hasHeader (self : t) (name : pystr) : result bool :=
  encodedName <- _encodeName (lower name) ;;
  Ok (dict_contains encodedName (_rawHeaders self)).

Definition removeHeader (self : t) (name : pystr) : result t :=
  encodedName <- _encodeName (lower name) ;;
  Ok (mk (dict_pop encodedName (_rawHeaders self))).

Definition setRawHeaders (self : t) (name : pystr) (values : object)
  : result t :=
  match values with
  | PyList l =>
      name <- _encodeName (lower name) ;;
      newValues <- _encodeValues l ;;
      Ok (mk (dict_set name newValues (_rawHeaders self)))
  | _ => Raise TypeError
  end.

Definition getRawHeaders (self : t) (name : pystr) (default : object)
  : result object :=
  let name := lower name in
  encodedName <- _encodeName name ;;
  let values :=
    match dict_get encodedName (_rawHeaders self) with
    | Some l => PyList (map Bytes l)
    | None => default
    end in
  if is_unicode name then _decodeValues values else Ok values.

(** In [addRawHeader] the list that [getRawHeaders] returns for a byte
    name is the stored list itself: [values.append(value)] changes the
    store before [setRawHeaders] puts a rebuilt list in its place. *)
Definition addRawHeader (self : t) (name value : pystr) : result t :=
  name <- _encodeName name ;;
  value <- _encodeValue value ;;
  values <- getRawHeaders self (Bytes name) PyNone ;;
  match values with
  | PyNone => setRawHeaders self (Bytes name) (PyList [Bytes value])
  | PyList l =>
      let appended :=
        mk (dict_set (bytes_lower name)
              (match dict_get (bytes_lower name) (_rawHeaders self) with
               | Some stored => stored ++ [value]
               | None => [value]
               end)
              (_rawHeaders self)) in
      setRawHeaders appended (Bytes name) (PyList (l ++ [Bytes value]))
  | _ => Raise AttributeError
  end.

(** [__init__(rawHeaders)]: [None] or a mapping from names to sequences of
    values, given by its items.  The sequences are only iterated. *)
Fixpoint init_items (self : t) (items : list (pystr * list pystr))
  : result t :=
  match items with
  | [] => Ok self
  | (name, values) :: rest =>
      encodedName <- _encodeName name ;;
      encodedValues <- _encodeValues values ;;
      self <- setRawHeaders self (Bytes encodedName)
                (PyList (map Bytes encodedValues)) ;;
      init_items self rest
  end.

Definition __init__ (rawHeaders : option (list (pystr * list pystr)))
  : result t :=
  match rawHeaders with
  | None => Ok (mk [])
  | Some items => init_items (mk []) items
  end.

(** [__cmp__(other)] for [other] a [Headers] object. *)
Definition __cmp__ (self other : t) : Z :=
  cmp (sorted (dict_items (_rawHeaders self)))
      (sorted (dict_items (_rawHeaders other))).

(** Modelled from the spec: the class decorator [comparable] of
    [twisted.python.compat] is not part of the source at hand.  It gives
    the class the comparison operators of its [__cmp__]; [self == other]
    holds when [__cmp__] answers zero. *)
Definition __eq__ (self other : t) : bool := (__cmp__ self other =? 0)%Z.

Definition copy (self : t) : result t :=
  __init__ (Some (map (fun kv => (Bytes (fst kv), map Bytes (snd kv)))
                      (dict_items (_rawHeaders self)))).

Definition _canonicalNameCaps (name : pystr) : result pystr :=
  encodedName <- _encodeName name ;;
  let canonicalName :=
    match dict_get encodedName _caseMappings with
    | Some canonical => canonical
    | None => _dashCapitalize encodedName
    end in
  if is_unicode name then Ok (Text (_decodeName canonicalName))
  else Ok (Bytes canonicalName).

(** [getAllRawHeaders()], as the list of the pairs it yields. *)
Definition getAllRawHeaders (self : t) : result (list (pystr * list bytes)) :=
  mapM (fun kv => k <- _canonicalNameCaps (Bytes (fst kv)) ;; Ok (k, snd kv))
       (dict_items (_rawHeaders self)).

End Headers.

Module _DictHeaders.

(** The view holds a reference to the header object and nothing else:
    its methods read and write that object. *)

(** [o[-1]]. *)
Definition last_item (o : object) : result object :=
  match o with
  | PyList l | PyTuple l =>
      match rev l with
      | x :: _ => Ok (PyStr x)
      | [] => Raise IndexError
      end
  | PyStr (Text u) =>
      match rev u with
      | c :: _ => Ok (PyStr (Text [c]))
      | [] => Raise IndexError
      end
  | PyStr (Bytes b) =>
      match rev (list_ascii_of_string b) with
      | c :: _ => Ok (PyInt (Z.of_N (N_of_ascii c)))
      | [] => Raise IndexError
      end
  | PyNone | PyInt _ => Raise TypeError
  end.

Definition __getitem__ (_headers : Headers.t) (key : pystr) : result object :=
  present <- Headers.hasHeader _headers key ;;
  if present : bool then
    values <- Headers.getRawHeaders _headers key PyNone ;;
    last_item values
  else Raise KeyError.

Definition __setitem__ (_headers : Headers.t) (key value : pystr)
  : result Headers.t :=
  Headers.setRawHeaders _headers key (PyList [value]).

Definition __delitem__ (_headers : Headers.t) (key : pystr)
  : result Headers.t :=
  present <- Headers.hasHeader _headers key ;;
  if present : bool then Headers.removeHeader _headers key
  else Raise KeyError.

Definition __iter__ (_headers : Headers.t) : result (list pystr) :=
  all <- Headers.getAllRawHeaders _headers ;;
  Ok (map (fun kv => lower (fst kv)) all).

Definition __len__ (_headers : Headers.t) : nat :=
  List.length (Headers._rawHeaders _headers).

(** [copy()]: [dict(self.items())]. *)
Definition copy (_headers : Headers.t) : result pydict :=
  pairs <- Mapping.items (__iter__ _headers) (__getitem__ _headers) ;;
  Ok (pydict_of pairs).

(** [has_key(key)]: [key in self]. *)
Definition has_key (_headers : Headers.t) (key : pystr) : result bool :=
  Mapping.__contains__ (__getitem__ _headers) key.

End _DictHeaders.

(* ================================================================== *)
(** * Notions used in the statements *)
(* ================================================================== *)

(** The text literal [u"..."] for characters below U+0100. *)
Definition text_of (s : string) : unicode := latin1_decode s.

(** The bytes literal [b"\x.."], from the values of its bytes. *)
Definition bytes_of (l : list N) : bytes :=
  string_of_list_ascii (map ascii_of_N l).

(** The key under which the methods that take a name look it up:
    lower-cased, then encoded. *)
Definition storage_key (name : pystr) : result bytes :=
  Headers._encodeName (lower name).

(** The sequence stored for a key, if any. *)
Definition stored (self : Headers.t) (k : bytes) : option (list bytes) :=
  dict_get k (Headers._rawHeaders self).

(** A dictionary has one entry per key. *)
Definition keys_unique (self : Headers.t) : Prop :=
  NoDup (dict_keys (Headers._rawHeaders self)).

(** Bytes below 128 only. *)
Fixpoint ascii_only (b : bytes) : bool :=
  match b with
  | EmptyString => true
  | String c r => (N_of_ascii c <? 128)%N && ascii_only r
  end.

(** Every key is its own lower case. *)
Definition keys_lower (self : Headers.t) : Prop :=
  Forall (fun k => bytes_lower k = k) (dict_keys (Headers._rawHeaders self)).

(** The last element of a sequence, if any. *)
Definition last_of {A : Type} (l : list A) : option A :=
  match rev l with
  | x :: _ => Some x
  | [] => None
  end.

(** No entry of the store has an empty sequence. *)
Definition has_values (self : Headers.t) : bool :=
  forallb (fun kv => match snd kv with [] => false | _ => true end)
          (Headers._rawHeaders self).

(** ** Capitalization, in the words of the specification

    One pass over the name: a ['-'] is kept and starts a segment; the
    first character of a segment is upper-cased, the others lower-cased. *)
Fixpoint capitalize_segments (first : bool) (name : bytes) : bytes :=
  match name with
  | EmptyString => EmptyString
  | String c r =>
      if Ascii.eqb c "-"%char then String c (capitalize_segments true r)
      else String (if first then ascii_upper c else ascii_lower c)
                  (capitalize_segments false r)
  end.

(** The irregular-name table first, the generic rule otherwise. *)
Definition canonical_spelling (name : bytes) : bytes :=
  match dict_get name Headers._caseMappings with
  | Some irregular => irregular
  | None => capitalize_segments true name
  end.

(** A byte result in the kind of the name it was computed for, as at the
    end of [_canonicalNameCaps]. *)
Definition in_kind_of (name : pystr) (b : bytes) : pystr :=
  match name with
  | Text _ => Text (Headers._decodeName b)
  | Bytes _ => Bytes b
  end.

(** Canonicalizing the canonical form of [name] changes nothing. *)
Definition recanonicalize_fixed (name : pystr) : Prop :=
  forall canonical,
    Headers._canonicalNameCaps name = Ok canonical ->
    Headers._canonicalNameCaps canonical = Ok canonical.

(** ** Capitalization variants of a name *)

(** Two bytes that are the same, or the two cases of one ASCII letter. *)
Definition ascii_case_variant (a b : ascii) : bool :=
  Ascii.eqb a b
  || (is_ascii_lower a && Ascii.eqb b (ascii_upper a))
  || (is_ascii_upper a && Ascii.eqb b (ascii_lower a)).

Fixpoint bytes_case_variant (a b : bytes) : bool :=
  match a, b with
  | EmptyString, EmptyString => true
  | String x a', String y b' =>
      ascii_case_variant x y && bytes_case_variant a' b'
  | _, _ => false
  end.

(** Two code points with the same lower case. *)
Definition cp_case_variant (x y : N) : bool := (cp_lower x =? cp_lower y)%N.

Fixpoint unicode_case_variant (a b : unicode) : bool :=
  match a, b with
  | [], [] => true
  | x :: a', y :: b' => cp_case_variant x y && unicode_case_variant a' b'
  | _, _ => false
  end.

(** Two names of the same kind that differ by capitalization only. *)
Definition case_variant (n1 n2 : pystr) : bool :=
  match n1, n2 with
  | Bytes a, Bytes b => bytes_case_variant a b
  | Text a, Text b => unicode_case_variant a b
  | _, _ => false
  end.

(** ** A value in the kind of the name it is read with *)

(** What a read with a byte name gives for a value that was set. *)
Definition as_bytes (value : pystr) : result bytes :=
  match value with
  | Bytes b => Ok b
  | Text t => utf8_encode t
  end.

(** What a read with a text name gives for a value that was set. *)
Definition as_text (value : pystr) : result unicode :=
  match value with
  | Bytes b => utf8_decode b
  | Text t => Ok t
  end.

Definition read_back (name : pystr) (values : list pystr) : result object :=
  match name with
  | Bytes _ => bs <- mapM as_bytes values ;; Ok (PyList (map Bytes bs))
  | Text _ => us <- mapM as_text values ;; Ok (PyList (map Text us))
  end.

(** ** The order of [sorted] *)

(** [a] is not above [b]. *)
Definition item_le (a b : item) : Prop := item_ltb b a = false.

(** ** Histories of a store *)

(** The calls that change a store. *)
Inductive call : Type :=
| SetRawHeaders (name : pystr) (values : object)
| AddRawHeader (name value : pystr)
| RemoveHeader (name : pystr).

Definition perform (self : Headers.t) (c : call) : result Headers.t :=
  match c with
  | SetRawHeaders name values => Headers.setRawHeaders self name values
  | AddRawHeader name value => Headers.addRawHeader self name value
  | RemoveHeader name => Headers.removeHeader self name
  end.

(** A sequence of calls that all return.  (A call that raises does so
    before it changes the store.) *)
Fixpoint run (self : Headers.t) (calls : list call) : result Headers.t :=
  match calls with
  | [] => Ok self
  | c :: rest => self <- perform self c ;; run self rest
  end.

(** Every key of the store has at least one value. *)
Definition nonempty_values (self : Headers.t) : Prop :=
  forall k vs, stored self k = Some vs -> vs <> [].

(** A store that the constructor and the mutators can produce. *)
Definition reachable (self : Headers.t) : Prop :=
  exists rawHeaders calls self0,
    Headers.__init__ rawHeaders = Ok self0 /\ run self0 calls = Ok self.

(** The caller never hands over an empty sequence of values. *)
Definition gives_values (c : call) : bool :=
  match c with
  | SetRawHeaders _ (PyList []) => false
  | _ => true
  end.

Definition import_gives_values (rawHeaders : option (list (pystr * list pystr)))
  : bool :=
  match rawHeaders with
  | None => true
  | Some items =>
      forallb (fun kv => match snd kv with [] => false | _ => true end) items
  end.

(* ================================================================== *)
(** * Properties of the runtime *)
(* ================================================================== *)

Section AsciiCase.

(** A statement about one byte is settled on its eight bits. *)
Ltac by_bits a := destruct a as [[] [] [] [] [] [] [] []]; reflexivity.

Lemma ascii_lower_idem (a : ascii) : ascii_lower (ascii_lower a) = ascii_lower a.
Proof. by_bits a. Qed.

Lemma ascii_upper_idem (a : ascii) : ascii_upper (ascii_upper a) = ascii_upper a.
Proof. by_bits a. Qed.

Lemma ascii_lower_upper (a : ascii) : ascii_lower (ascii_upper a) = ascii_lower a.
Proof. by_bits a. Qed.

Lemma ascii_upper_not_lower (a : ascii) : is_ascii_lower (ascii_upper a) = false.
Proof. by_bits a. Qed.

Lemma ascii_upper_dash (a : ascii) :
  Ascii.eqb (ascii_upper a) "-"%char = Ascii.eqb a "-"%char.
Proof. by_bits a. Qed.

Lemma ascii_lower_dash (a : ascii) :
  Ascii.eqb (ascii_lower a) "-"%char = Ascii.eqb a "-"%char.
Proof. by_bits a. Qed.

(** On a byte read as a code point, the lower case of text extends the
    lower case of bytes. *)
Lemma cp_lower_ascii_lower (a : ascii) :
  cp_lower (N_of_ascii (ascii_lower a)) = cp_lower (N_of_ascii a).
Proof. by_bits a. Qed.

End AsciiCase.

Lemma ascii_case_variant_lower (a b : ascii) :
  ascii_case_variant a b = true -> ascii_lower a = ascii_lower b.
Proof.
  unfold ascii_case_variant. intros Hv.
  apply orb_true_iff in Hv. destruct Hv as [Hv | Hv].
  - apply orb_true_iff in Hv. destruct Hv as [Hv | Hv].
    + apply Ascii.eqb_eq in Hv. now subst.
    + apply andb_true_iff in Hv. destruct Hv as [_ Hv].
      apply Ascii.eqb_eq in Hv. subst. now rewrite ascii_lower_upper.
  - apply andb_true_iff in Hv. destruct Hv as [_ Hv].
    apply Ascii.eqb_eq in Hv. subst. now rewrite ascii_lower_idem.
Qed.

Lemma bytes_case_variant_lower (a b : bytes) :
  bytes_case_variant a b = true -> bytes_lower a = bytes_lower b.
Proof.
  revert b. induction a as [| x a IH]; intros [| y b] Hv; simpl in Hv;
    try discriminate; [reflexivity |].
  apply andb_true_iff in Hv. destruct Hv as [Hx Ha].
  unfold bytes_lower. simpl.
  rewrite (ascii_case_variant_lower _ _ Hx). f_equal. now apply IH.
Qed.

Lemma unicode_case_variant_lower (a b : unicode) :
  unicode_case_variant a b = true -> unicode_lower a = unicode_lower b.
Proof.
  revert b. induction a as [| x a IH]; intros [| y b] Hv; simpl in Hv;
    try discriminate; [reflexivity |].
  apply andb_true_iff in Hv. destruct Hv as [Hx Ha].
  unfold cp_case_variant in Hx. apply N.eqb_eq in Hx.
  unfold unicode_lower. simpl. rewrite Hx. f_equal. now apply IH.
Qed.

Lemma bytes_lower_idem (s : bytes) : bytes_lower (bytes_lower s) = bytes_lower s.
Proof.
  unfold bytes_lower. induction s as [| c s IH]; simpl; [reflexivity |].
  now rewrite ascii_lower_idem, IH.
Qed.

Lemma bytes_lower_upper (s : bytes) : bytes_lower (bytes_upper s) = bytes_lower s.
Proof.
  unfold bytes_lower, bytes_upper. induction s as [| c s IH]; simpl;
    [reflexivity |].
  now rewrite ascii_lower_upper, IH.
Qed.

(* ================================================================== *)
(** * Canonical capitalization *)
(* ================================================================== *)

Lemma bytes_split_nonempty (sep : ascii) (s : bytes) : bytes_split sep s <> [].
Proof.
  destruct s as [| c r]; simpl; [discriminate |].
  destruct (Ascii.eqb c sep); [discriminate |].
  destruct (bytes_split sep r); discriminate.
Qed.

Lemma bytes_join_cons_char (sep c : ascii) (w : bytes) (ws : list bytes) :
  bytes_join sep (String c w :: ws) = String c (bytes_join sep (w :: ws)).
Proof. destruct ws; reflexivity. Qed.

Lemma bytes_join_empty_word (sep : ascii) (w : bytes) (ws : list bytes) :
  bytes_join sep (EmptyString :: w :: ws) = String sep (bytes_join sep (w :: ws)).
Proof. reflexivity. Qed.

(** Splitting, capitalizing the words and joining them again is the one
    pass of [capitalize_segments]; the second part covers the position
    inside a word, where the rest of the word is lower-cased. *)
Lemma split_capitalize_join (name : bytes) :
  forall w ws, bytes_split "-"%char name = w :: ws ->
    bytes_join "-"%char (bytes_capitalize w :: map bytes_capitalize ws)
      = capitalize_segments true name
    /\ bytes_join "-"%char (bytes_lower w :: map bytes_capitalize ws)
      = capitalize_segments false name.
Proof.
  induction name as [| c r IH]; intros w ws Hs; simpl in Hs.
  - injection Hs as <- <-. split; reflexivity.
  - destruct (Ascii.eqb c "-"%char) eqn:Hc.
    + injection Hs as <- <-.
      destruct (bytes_split "-"%char r) as [| w' ws'] eqn:Hr;
        [now apply bytes_split_nonempty in Hr |].
      destruct (IH w' ws' eq_refl) as [IHt _].
      apply Ascii.eqb_eq in Hc. subst c.
      split; simpl map; cbn [bytes_capitalize bytes_lower bytes_map];
        rewrite bytes_join_empty_word; simpl; now rewrite <- IHt.
    + destruct (bytes_split "-"%char r) as [| w' ws'] eqn:Hr;
        [now apply bytes_split_nonempty in Hr |].
      injection Hs as <- <-.
      destruct (IH w' ws' eq_refl) as [_ IHf].
      split; cbn [bytes_capitalize bytes_lower bytes_map capitalize_segments];
        rewrite Hc, bytes_join_cons_char; f_equal; exact IHf.
Qed.

Lemma dashCapitalize_segments (name : bytes) :
  _dashCapitalize name = capitalize_segments true name.
Proof.
  unfold _dashCapitalize.
  destruct (bytes_split "-"%char name) as [| w ws] eqn:Hs;
    [now apply bytes_split_nonempty in Hs |].
  now destruct (split_capitalize_join name w ws Hs).
Qed.

Lemma canonicalNameCaps_bytes (name : bytes) :
  Headers._canonicalNameCaps (Bytes name) = Ok (Bytes (canonical_spelling name)).
Proof.
  unfold Headers._canonicalNameCaps, canonical_spelling. simpl.
  now rewrite dashCapitalize_segments.
Qed.

Lemma getAllRawHeaders_canonical (self : Headers.t) :
  Headers.getAllRawHeaders self
  = Ok (map (fun kv => (Bytes (canonical_spelling (fst kv)), snd kv))
            (dict_items (Headers._rawHeaders self))).
Proof.
  unfold Headers.getAllRawHeaders, dict_items.
  induction (Headers._rawHeaders self) as [| [k v] d IH]; [reflexivity |].
  cbn [mapM map fst snd]. rewrite canonicalNameCaps_bytes, IH. reflexivity.
Qed.

(** C4. The display name that [getAllRawHeaders] gives for a stored name
    is the spelling of the irregular-name table when the name is in the
    table, and otherwise the name with every segment between ['-']
    separators capitalized (first character upper-cased, the rest
    lower-cased); so [content-type] gives [Content-Type],
    [x-forwarded-for] gives [X-Forwarded-For] and [dnt] gives [DNT]. *)
Theorem canonical_capitalization (self : Headers.t) (name : bytes) :
  Headers._canonicalNameCaps (Bytes name)
  = Ok (Bytes match dict_get name Headers._caseMappings with
              | Some irregular => irregular
              | None => capitalize_segments true name
              end)
  /\ Headers.getAllRawHeaders self
     = Ok (map (fun kv => (Bytes (canonical_spelling (fst kv)), snd kv))
               (dict_items (Headers._rawHeaders self)))
  /\ Headers._canonicalNameCaps (Bytes "content-type")
     = Ok (Bytes "Content-Type")
  /\ Headers._canonicalNameCaps (Bytes "x-forwarded-for")
     = Ok (Bytes "X-Forwarded-For")
  /\ Headers._canonicalNameCaps (Bytes "dnt") = Ok (Bytes "DNT").
Proof.
  split; [apply canonicalNameCaps_bytes |].
  split; [apply getAllRawHeaders_canonical |].
  repeat split; reflexivity.
Qed.

(** ** Re-canonicalizing *)

Lemma ascii_upper_lower (a : ascii) : ascii_upper (ascii_lower a) = ascii_upper a.
Proof. destruct a as [[] [] [] [] [] [] [] []]; reflexivity. Qed.

Lemma capitalize_segments_idem (first : bool) (s : bytes) :
  capitalize_segments first (capitalize_segments first s)
  = capitalize_segments first s.
Proof.
  revert first. induction s as [| c r IH]; intros first; [reflexivity |].
  simpl. destruct (Ascii.eqb c "-"%char) eqn:Hc; simpl.
  - now rewrite Hc, IH.
  - destruct first.
    + now rewrite ascii_upper_dash, Hc, ascii_upper_idem, IH.
    + now rewrite ascii_lower_dash, Hc, ascii_lower_idem, IH.
Qed.

Lemma lower_capitalize_segments (first : bool) (s : bytes) :
  bytes_lower (capitalize_segments first s) = bytes_lower s.
Proof.
  unfold bytes_lower. revert first.
  induction s as [| c r IH]; intros first; [reflexivity |].
  simpl. destruct (Ascii.eqb c "-"%char); simpl.
  - now rewrite IH.
  - destruct first; now rewrite ?ascii_lower_upper, ?ascii_lower_idem, IH.
Qed.

Lemma capitalize_segments_lower (first : bool) (s : bytes) :
  capitalize_segments first (bytes_lower s) = capitalize_segments first s.
Proof.
  unfold bytes_lower. revert first.
  induction s as [| c r IH]; intros first; [reflexivity |].
  simpl. rewrite ascii_lower_dash.
  destruct (Ascii.eqb_spec c "-"%char) as [-> | _].
  - now rewrite IH.
  - destruct first; now rewrite ?ascii_upper_lower, ?ascii_lower_idem, IH.
Qed.

(** The keys of the irregular-name table are the lower case of their
    spellings. *)
Lemma caseMappings_lower (k irregular : bytes) :
  dict_get k Headers._caseMappings = Some irregular ->
  bytes_lower irregular = k.
Proof.
  unfold Headers._caseMappings. simpl.
  repeat match goal with
         | |- context [String.eqb k ?key] =>
             destruct (String.eqb_spec k key) as [-> | _];
             [intros [= <-]; reflexivity |]
         end.
  discriminate.
Qed.

(** A name that does not start with a lower-case letter is not a key of
    the table. *)
Lemma caseMappings_capitalized (s : bytes) :
  dict_get (capitalize_segments true s) Headers._caseMappings = None.
Proof.
  destruct s as [| c r]; [reflexivity |].
  cbn [capitalize_segments].
  destruct (Ascii.eqb c "-"%char) eqn:Hc.
  - apply Ascii.eqb_eq in Hc. subst c. reflexivity.
  - pose proof (ascii_upper_not_lower c) as Hu.
    unfold Headers._caseMappings. cbn [dict_get String.eqb].
    repeat match goal with
           | |- context [Ascii.eqb (ascii_upper c) ?x] =>
               destruct (Ascii.eqb_spec (ascii_upper c) x) as [He | _];
               [rewrite He in Hu; discriminate Hu |]
           end.
    reflexivity.
Qed.

(** ** ISO-8859-1 round trips *)

Lemma latin1_encode_decode (b : bytes) : latin1_encode (latin1_decode b) = Ok b.
Proof.
  induction b as [| c r IH]; [reflexivity |].
  simpl. pose proof (N_ascii_bounded c) as Hc.
  apply N.ltb_lt in Hc. rewrite Hc, IH. simpl.
  now rewrite ascii_N_embedding.
Qed.

Lemma latin1_decode_encode (u : unicode) (b : bytes) :
  latin1_encode u = Ok b -> latin1_decode b = u.
Proof.
  revert b. induction u as [| c r IH]; intros b; simpl.
  - now intros [= <-].
  - destruct (c <? 256)%N eqn:Hc; [| discriminate].
    destruct (latin1_encode r) as [s |]; [| discriminate].
    simpl. intros [= <-]. simpl.
    apply N.ltb_lt in Hc. now rewrite N_ascii_embedding, (IH s eq_refl).
Qed.

Lemma cp_lower_latin1_decode (s : bytes) :
  unicode_lower (latin1_decode (bytes_lower s))
  = unicode_lower (latin1_decode s).
Proof.
  unfold unicode_lower, bytes_lower.
  induction s as [| c r IH]; [reflexivity |].
  simpl. now rewrite cp_lower_ascii_lower, IH.
Qed.

Lemma canonical_spelling_lower (e : bytes) :
  bytes_lower (canonical_spelling e) = bytes_lower e.
Proof.
  unfold canonical_spelling.
  destruct (dict_get e Headers._caseMappings) as [irregular |] eqn:Ht.
  - apply caseMappings_lower in Ht. subst e. now rewrite bytes_lower_idem.
  - apply lower_capitalize_segments.
Qed.

Lemma canonicalNameCaps_encoded (name : pystr) (encoded : bytes) :
  Headers._encodeName name = Ok encoded ->
  Headers._canonicalNameCaps name
  = Ok (in_kind_of name (canonical_spelling encoded)).
Proof.
  intros He. unfold Headers._canonicalNameCaps. rewrite He. simpl.
  unfold canonical_spelling. rewrite dashCapitalize_segments.
  now destruct name.
Qed.

Lemma encodeName_in_kind_of (name : pystr) (b : bytes) :
  Headers._encodeName (in_kind_of name b) = Ok b.
Proof. destruct name; simpl; [reflexivity | apply latin1_encode_decode]. Qed.

Lemma storage_key_in_kind_of (name : pystr) (encoded b : bytes) :
  Headers._encodeName name = Ok encoded ->
  bytes_lower b = bytes_lower encoded ->
  storage_key (in_kind_of name b) = storage_key name.
Proof.
  intros He Hb. destruct name as [n | t]; unfold storage_key; simpl in *.
  - injection He as ->. now rewrite Hb.
  - apply latin1_decode_encode in He. subst t.
    unfold Headers._decodeName.
    rewrite <- (cp_lower_latin1_decode b), Hb.
    now rewrite cp_lower_latin1_decode.
Qed.

(** C8, as the code has it.  For a name that encodes, the canonical form
    keeps the storage key.  Canonicalizing the canonical form again gives
    it back when the name is not in the irregular-name table; for a name
    of the table it gives the generic capitalization of the name instead
    of the table's spelling. *)
Theorem canonical_recanonicalize (name : pystr) (encoded : bytes) :
  Headers._encodeName name = Ok encoded ->
  let canonical := in_kind_of name (canonical_spelling encoded) in
  Headers._canonicalNameCaps name = Ok canonical
  /\ storage_key canonical = storage_key name
  /\ Headers._canonicalNameCaps canonical
     = match dict_get encoded Headers._caseMappings with
       | None => Ok canonical
       | Some _ => Ok (in_kind_of name (capitalize_segments true encoded))
       end.
Proof.
  intros He canonical. subst canonical.
  split; [now apply canonicalNameCaps_encoded |].
  split; [apply (storage_key_in_kind_of name encoded); auto using canonical_spelling_lower |].
  rewrite (canonicalNameCaps_encoded _ _ (encodeName_in_kind_of name _)).
  assert (Hk : forall b c, in_kind_of (in_kind_of name b) c = in_kind_of name c)
    by (intros; now destruct name).
  rewrite Hk. unfold canonical_spelling at 1 2.
  destruct (dict_get encoded Headers._caseMappings) as [irregular |] eqn:Ht.
  - pose proof (caseMappings_lower _ _ Ht) as Hl.
    assert (Hn : dict_get irregular Headers._caseMappings = None).
    { clear Hl. revert Ht. unfold Headers._caseMappings. simpl.
      repeat match goal with
             | |- context [String.eqb encoded ?key] =>
                 destruct (String.eqb_spec encoded key) as [-> | _];
                 [intros [= <-]; reflexivity |]
             end.
      discriminate. }
    rewrite Hn, <- Hl, capitalize_segments_lower. reflexivity.
  - rewrite caseMappings_capitalized, capitalize_segments_idem.
    unfold canonical_spelling. now rewrite Ht.
Qed.

Lemma canonical_recanonicalize_witness :
  Headers._encodeName (Bytes "x-forwarded-for") = Ok "x-forwarded-for"
  /\ Headers._canonicalNameCaps (Bytes "x-forwarded-for")
     = Ok (Bytes "X-Forwarded-For")
  /\ storage_key (Bytes "X-Forwarded-For") = storage_key (Bytes "x-forwarded-for")
  /\ Headers._canonicalNameCaps (Bytes "X-Forwarded-For")
     = Ok (Bytes "X-Forwarded-For").
Proof.
  split; [reflexivity |].
  apply (canonical_recanonicalize (Bytes "x-forwarded-for") "x-forwarded-for").
  reflexivity.
Defined.

(** The canonical form of [dnt] is the table's [DNT]; canonicalizing
    [DNT] gives [Dnt]. *)
Lemma recanonicalize_dnt_changes : ~ recanonicalize_fixed (Bytes "dnt").
Proof.
  intros Hfix. specialize (Hfix (Bytes "DNT") eq_refl). discriminate Hfix.
Qed.

(* ================================================================== *)
(** * Dictionaries *)
(* ================================================================== *)

Section Dict.

Context {V : Type}.
Implicit Types (d : dict V) (k : bytes) (v : V).

Lemma dict_get_set k k' v d :
  dict_get k (dict_set k' v d)
  = if String.eqb k k' then Some v else dict_get k d.
Proof.
  induction d as [| [k0 v0] d IH]; simpl.
  - now destruct (String.eqb k k').
  - destruct (String.eqb_spec k' k0) as [-> | Hne]; simpl.
    + now destruct (String.eqb k k0).
    + destruct (String.eqb_spec k k0) as [-> | Hne'].
      * apply not_eq_sym in Hne. apply String.eqb_neq in Hne. now rewrite Hne.
      * exact IH.
Qed.

Lemma dict_get_pop k k' d :
  dict_get k (dict_pop k' d)
  = if String.eqb k k' then None else dict_get k d.
Proof.
  induction d as [| [k0 v0] d IH]; simpl.
  - now destruct (String.eqb k k').
  - destruct (String.eqb_spec k' k0) as [-> | Hne]; simpl.
    + rewrite IH. now destruct (String.eqb k k0).
    + destruct (String.eqb_spec k k0) as [-> | Hne'].
      * apply not_eq_sym in Hne. apply String.eqb_neq in Hne. now rewrite Hne.
      * exact IH.
Qed.

(** Assigning twice to a key is assigning the last value once. *)
Lemma dict_set_set k v v' d :
  dict_set k v' (dict_set k v d) = dict_set k v' d.
Proof.
  induction d as [| [k0 v0] d IH]; simpl.
  - now rewrite String.eqb_refl.
  - destruct (String.eqb k k0) eqn:Hk; simpl.
    + now rewrite String.eqb_refl.
    + now rewrite Hk, IH.
Qed.

Lemma dict_keys_set_present k v d :
  dict_contains k d = true -> dict_keys (dict_set k v d) = dict_keys d.
Proof.
  unfold dict_contains, dict_keys.
  induction d as [| [k0 v0] d IH]; simpl; [discriminate |].
  destruct (String.eqb_spec k k0) as [-> | Hne]; simpl; [reflexivity |].
  intros Hc. now rewrite IH.
Qed.

Lemma dict_keys_set_absent k v d :
  dict_contains k d = false -> dict_keys (dict_set k v d) = dict_keys d ++ [k].
Proof.
  unfold dict_contains, dict_keys.
  induction d as [| [k0 v0] d IH]; simpl; [reflexivity |].
  destruct (String.eqb_spec k k0) as [-> | Hne]; simpl; [discriminate |].
  intros Hc. now rewrite IH.
Qed.

Lemma dict_get_in k v d : dict_get k d = Some v -> In (k, v) d.
Proof.
  induction d as [| [k0 v0] d IH]; simpl; [discriminate |].
  destruct (String.eqb_spec k k0) as [-> | _].
  - intros [= ->]. now left.
  - intros Hg. right. now apply IH.
Qed.

End Dict.

(* ================================================================== *)
(** * Loops over value lists *)
(* ================================================================== *)

Lemma mapM_length {A B : Type} (f : A -> result B) (l : list A) (l' : list B) :
  mapM f l = Ok l' -> List.length l' = List.length l.
Proof.
  revert l'. induction l as [| x l IH]; intros l'; simpl.
  - now intros [= <-].
  - destruct (f x) as [y |]; [| discriminate]. simpl.
    destruct (mapM f l) as [ys |]; [| discriminate]. simpl.
    intros [= <-]. simpl. now rewrite (IH ys eq_refl).
Qed.

Lemma mapM_app {A B : Type} (f : A -> result B) (l1 l2 : list A) :
  mapM f (l1 ++ l2)
  = (a <- mapM f l1 ;; b <- mapM f l2 ;; Ok (a ++ b)).
Proof.
  induction l1 as [| x l1 IH]; simpl.
  - now destruct (mapM f l2).
  - destruct (f x) as [y |]; [| reflexivity]. simpl. rewrite IH.
    destruct (mapM f l1) as [ys |]; [| reflexivity]. simpl.
    now destruct (mapM f l2).
Qed.

Lemma mapM_ext {A B : Type} (f g : A -> result B) (l : list A) :
  (forall x, In x l -> f x = g x) -> mapM f l = mapM g l.
Proof.
  induction l as [| x l IH]; intros Hfg; [reflexivity |].
  simpl. rewrite (Hfg x (or_introl eq_refl)), IH; [reflexivity |].
  intros y Hy. apply Hfg. now right.
Qed.

Lemma mapM_map {A B C : Type} (g : A -> B) (f : B -> result C) (l : list A) :
  mapM f (map g l) = mapM (fun x => f (g x)) l.
Proof.
  induction l as [| x l IH]; [reflexivity |]. simpl. now rewrite IH.
Qed.

Lemma mapM_Ok {A : Type} (l : list A) : mapM (fun x => Ok x) l = Ok l.
Proof.
  induction l as [| x l IH]; [reflexivity |]. simpl. now rewrite IH.
Qed.

(** Values that are bytes already are stored as they are. *)
Lemma encodeValues_bytes (l : list bytes) :
  Headers._encodeValues (map Bytes l) = Ok l.
Proof.
  unfold Headers._encodeValues. rewrite mapM_map. simpl. apply mapM_Ok.
Qed.

(* ================================================================== *)
(** * The methods of [Headers] *)
(* ================================================================== *)

Lemma setRawHeaders_Ok (self : Headers.t) (name : pystr) (l : list pystr)
      (k : bytes) (vs : list bytes) :
  storage_key name = Ok k ->
  Headers._encodeValues l = Ok vs ->
  Headers.setRawHeaders self name (PyList l)
  = Ok (Headers.mk (dict_set k vs (Headers._rawHeaders self))).
Proof.
  unfold storage_key, Headers.setRawHeaders. intros -> ->. reflexivity.
Qed.

Lemma setRawHeaders_inv (self self' : Headers.t) (name : pystr) (values : object) :
  Headers.setRawHeaders self name values = Ok self' ->
  exists l k vs,
    values = PyList l /\ storage_key name = Ok k
    /\ Headers._encodeValues l = Ok vs
    /\ self' = Headers.mk (dict_set k vs (Headers._rawHeaders self)).
Proof.
  unfold Headers.setRawHeaders, storage_key.
  destruct values as [| | | | l]; try discriminate.
  destruct (Headers._encodeName (lower name)) as [k |] eqn:Hk;
    [| discriminate].
  destruct (Headers._encodeValues l) as [vs |] eqn:Hvs; [| discriminate].
  cbn [bind]. intros [= <-]. exists l, k, vs. repeat split; assumption.
Qed.

Lemma getRawHeaders_bytes (self : Headers.t) (b : bytes) (default : object) :
  Headers.getRawHeaders self (Bytes b) default
  = Ok match stored self (bytes_lower b) with
       | Some l => PyList (map Bytes l)
       | None => default
       end.
Proof. reflexivity. Qed.

Lemma decodeValues_stored (l : list bytes) :
  Headers._decodeValues (PyList (map Bytes l))
  = (us <- mapM utf8_decode l ;; Ok (PyList (map Text us))).
Proof. simpl. now rewrite mapM_map. Qed.

(** What [getRawHeaders] does, by the kind of the name and the presence of
    the key. *)
Lemma getRawHeaders_key (self : Headers.t) (name : pystr) (default : object)
      (k : bytes) :
  storage_key name = Ok k ->
  Headers.getRawHeaders self name default
  = match stored self k with
    | Some l =>
        if is_unicode name
        then us <- mapM utf8_decode l ;; Ok (PyList (map Text us))
        else Ok (PyList (map Bytes l))
    | None =>
        if is_unicode name then Headers._decodeValues default else Ok default
    end.
Proof.
  unfold storage_key, Headers.getRawHeaders, stored. intros ->.
  cbn [bind].
  assert (Hu : is_unicode (lower name) = is_unicode name) by now destruct name.
  rewrite Hu.
  destruct (dict_get k (Headers._rawHeaders self)) as [l |]; [| reflexivity].
  destruct (is_unicode name); [apply decodeValues_stored | reflexivity].
Qed.

Lemma hasHeader_key (self : Headers.t) (name : pystr) (k : bytes) :
  storage_key name = Ok k ->
  Headers.hasHeader self name
  = Ok match stored self k with Some _ => true | None => false end.
Proof. unfold storage_key, Headers.hasHeader. intros ->. reflexivity. Qed.

(** The effect of [addRawHeader]: the key is the encoded name, lower-cased
    as bytes. *)
Lemma addRawHeader_Ok (self : Headers.t) (name value : pystr) (e v : bytes) :
  Headers._encodeName name = Ok e ->
  Headers._encodeValue value = Ok v ->
  Headers.addRawHeader self name value
  = Ok (Headers.mk
          (dict_set (bytes_lower e)
             (match stored self (bytes_lower e) with
              | Some l => l ++ [v]
              | None => [v]
              end)
             (Headers._rawHeaders self))).
Proof.
  intros He Hv. unfold Headers.addRawHeader. rewrite He, Hv. cbn [bind].
  rewrite getRawHeaders_bytes. cbn [bind]. unfold stored.
  destruct (dict_get (bytes_lower e) (Headers._rawHeaders self)) as [l |].
  - erewrite setRawHeaders_Ok; [| reflexivity |].
    + cbn [Headers._rawHeaders]. now rewrite dict_set_set.
    + change [Bytes v] with (map Bytes [v]). rewrite <- map_app.
      apply encodeValues_bytes.
  - reflexivity.
Qed.

Lemma addRawHeader_inv (self self' : Headers.t) (name value : pystr) :
  Headers.addRawHeader self name value = Ok self' ->
  exists e v,
    Headers._encodeName name = Ok e /\ Headers._encodeValue value = Ok v.
Proof.
  unfold Headers.addRawHeader.
  destruct (Headers._encodeName name) as [e |]; [| discriminate].
  destruct (Headers._encodeValue value) as [v |]; [| discriminate].
  intros _. now exists e, v.
Qed.

(* ================================================================== *)
(** * Type check of [setRawHeaders] *)
(* ================================================================== *)

(** C5. [setRawHeaders] raises a type error for every [values] that is
    not a list, whatever the store and the name: nothing is stored and the
    value is never wrapped into a list. *)
Theorem setRawHeaders_not_list (self : Headers.t) (name : pystr) (values : object) :
  is_list values = false ->
  Headers.setRawHeaders self name values = Raise TypeError.
Proof. destruct values; simpl; (reflexivity || discriminate). Qed.

Lemma setRawHeaders_not_list_witness :
  is_list (PyStr (Bytes "not-a-list")) = false
  /\ Headers.setRawHeaders (Headers.mk []) (Bytes "x")
       (PyStr (Bytes "not-a-list"))
     = Raise TypeError.
Proof.
  split; [reflexivity |].
  apply (setRawHeaders_not_list (Headers.mk []) (Bytes "x")
           (PyStr (Bytes "not-a-list"))).
  reflexivity.
Defined.

(* ================================================================== *)
(** * Case-insensitive membership *)
(* ================================================================== *)

Lemma case_variant_lower (n1 n2 : pystr) :
  case_variant n1 n2 = true -> lower n1 = lower n2.
Proof.
  destruct n1 as [a | a], n2 as [b | b]; simpl; try discriminate; intros Hv.
  - now rewrite (bytes_case_variant_lower a b Hv).
  - now rewrite (unicode_case_variant_lower a b Hv).
Qed.

(** The usual ways to change the case of a byte name give variants. *)
Lemma case_variant_bytes_upper (b : bytes) :
  case_variant (Bytes b) (Bytes (bytes_upper b)) = true.
Proof.
  simpl. unfold bytes_upper. induction b as [| c r IH]; [reflexivity |].
  simpl. rewrite IH, andb_true_r.
  destruct c as [[] [] [] [] [] [] [] []]; reflexivity.
Qed.

Lemma case_variant_bytes_lower (b : bytes) :
  case_variant (Bytes b) (Bytes (bytes_lower b)) = true.
Proof.
  simpl. unfold bytes_lower. induction b as [| c r IH]; [reflexivity |].
  simpl. rewrite IH, andb_true_r.
  destruct c as [[] [] [] [] [] [] [] []]; reflexivity.
Qed.

(** C7. [hasHeader] gives the same answer for two capitalization variants
    of a name, be they bytes or text, in every store. *)
Theorem hasHeader_case_invariant (self : Headers.t) (n1 n2 : pystr) :
  case_variant n1 n2 = true ->
  Headers.hasHeader self n1 = Headers.hasHeader self n2.
Proof.
  intros Hv. unfold Headers.hasHeader.
  now rewrite (case_variant_lower n1 n2 Hv).
Qed.

Lemma hasHeader_case_invariant_witness :
  (case_variant (Bytes "Content-Type") (Bytes "CONTENT-TYPE") = true
   /\ Headers.hasHeader (Headers.mk [("content-type", ["text/html"])])
        (Bytes "Content-Type")
      = Headers.hasHeader (Headers.mk [("content-type", ["text/html"])])
          (Bytes "CONTENT-TYPE"))
  /\ (case_variant (Text (text_of "content-type")) (Text (text_of "Content-Type"))
      = true
      /\ Headers.hasHeader (Headers.mk [("content-type", ["text/html"])])
           (Text (text_of "content-type"))
         = Headers.hasHeader (Headers.mk [("content-type", ["text/html"])])
             (Text (text_of "Content-Type"))).
Proof.
  split; (split; [reflexivity |]);
    apply hasHeader_case_invariant; reflexivity.
Defined.

(* ================================================================== *)
(** * Reading with a default *)
(* ================================================================== *)

(** C9, as the code has it.  For a name that encodes: when the header is
    present the result is the stored sequence for a byte name and its
    UTF-8 decoding for a text name (the decoding error, when a stored value
    is not UTF-8); when the header is absent the result is the default
    itself, for a byte name and for a default that is not a list.  (A list
    given as default with a text name is outside the statement.) *)
Theorem getRawHeaders_stored_or_default
        (self : Headers.t) (name : pystr) (default : object) (k : bytes) :
  storage_key name = Ok k ->
  is_unicode name && is_list default
    && negb (dict_contains k (Headers._rawHeaders self)) = false ->
  Headers.getRawHeaders self name default
  = match stored self k with
    | Some l =>
        if is_unicode name
        then us <- mapM utf8_decode l ;; Ok (PyList (map Text us))
        else Ok (PyList (map Bytes l))
    | None => Ok default
    end.
Proof.
  intros Hk Hdom. rewrite (getRawHeaders_key self name default k Hk).
  unfold dict_contains in Hdom. unfold stored.
  destruct (dict_get k (Headers._rawHeaders self)) as [l |]; [reflexivity |].
  destruct (is_unicode name); [| reflexivity].
  destruct default; simpl in Hdom; (reflexivity || discriminate).
Qed.

Lemma getRawHeaders_stored_or_default_witness :
  (storage_key (Text (text_of "X-Test")) = Ok "x-test"
   /\ true && is_list PyNone && negb (dict_contains "x-test" (Headers._rawHeaders (Headers.mk [])))
      = false
   /\ Headers.getRawHeaders (Headers.mk []) (Text (text_of "X-Test")) PyNone
      = Ok PyNone)
  /\ (storage_key (Text (text_of "X-Test")) = Ok "x-test"
      /\ Headers.getRawHeaders (Headers.mk [("x-test", ["a"; "b"])])
           (Text (text_of "X-Test")) (PyList [])
         = Ok (PyList [Text (text_of "a"); Text (text_of "b")])).
Proof.
  split.
  - split; [reflexivity |]. split; [reflexivity |].
    apply (getRawHeaders_stored_or_default (Headers.mk [])
             (Text (text_of "X-Test")) PyNone "x-test"); reflexivity.
  - split; [reflexivity |].
    apply (getRawHeaders_stored_or_default
             (Headers.mk [("x-test", ["a"; "b"])])
             (Text (text_of "X-Test")) (PyList []) "x-test"); reflexivity.
Defined.

(** A header whose value was stored as bytes that are not UTF-8 is present,
    and reading it with a text name raises instead of returning the stored
    sequence decoded. *)
Lemma getRawHeaders_text_undecodable :
  let self := Headers.mk [("x", [bytes_of [255%N]])] in
  Headers.setRawHeaders (Headers.mk []) (Bytes "x")
    (PyList [Bytes (bytes_of [255%N])]) = Ok self
  /\ Headers.hasHeader self (Text (text_of "x")) = Ok true
  /\ Headers.getRawHeaders self (Text (text_of "x")) PyNone
     = Raise UnicodeDecodeError.
Proof. repeat split; reflexivity. Qed.

(** With a text name, a default that is a list comes back decoded. *)
Lemma getRawHeaders_list_default_decoded :
  Headers.getRawHeaders (Headers.mk []) (Text (text_of "x")) (PyList [Bytes "a"])
  = Ok (PyList [Text (text_of "a")]).
Proof. reflexivity. Qed.

(* ================================================================== *)
(** * The single-value view *)
(* ================================================================== *)

Lemma rev_map_head {A B : Type} (f : A -> B) (l : list A) :
  rev (map f l) = map f (rev l).
Proof. symmetry. apply map_rev. Qed.

(** C3, as the code has it.  For a key that encodes, reading it through
    the view raises the missing-key error when the header is absent; when
    it is present with a last value, the read gives that value for a byte
    key and its decoding for a text key (the decoding error, when a stored
    value is not UTF-8); when it is present with no value at all, the read
    raises an index error. *)
Theorem getitem_last_value (self : Headers.t) (key : pystr) (k : bytes) :
  storage_key key = Ok k ->
  _DictHeaders.__getitem__ self key
  = match stored self k with
    | None => Raise KeyError
    | Some l =>
        if is_unicode key
        then us <- mapM utf8_decode l ;;
             match rev us with
             | last :: _ => Ok (PyStr (Text last))
             | [] => Raise IndexError
             end
        else match rev l with
             | last :: _ => Ok (PyStr (Bytes last))
             | [] => Raise IndexError
             end
    end.
Proof.
  intros Hk. unfold _DictHeaders.__getitem__.
  rewrite (hasHeader_key self key k Hk). cbn [bind].
  rewrite (getRawHeaders_key self key PyNone k Hk).
  destruct (stored self k) as [l |]; [| reflexivity].
  destruct (is_unicode key).
  - destruct (mapM utf8_decode l) as [us |]; [| reflexivity].
    cbn [bind _DictHeaders.last_item]. rewrite rev_map_head.
    now destruct (rev us).
  - cbn [bind _DictHeaders.last_item]. rewrite rev_map_head.
    now destruct (rev l).
Qed.

Lemma getitem_last_value_witness :
  storage_key (Bytes "X") = Ok "x"
  /\ _DictHeaders.__getitem__ (Headers.mk [("x", ["a"; "b"])]) (Bytes "X")
     = Ok (PyStr (Bytes "b")).
Proof.
  split; [reflexivity |].
  apply (getitem_last_value (Headers.mk [("x", ["a"; "b"])]) (Bytes "X") "x").
  reflexivity.
Defined.

(** The read with a text key decodes every stored value before it takes
    the last one: here the header is present and its last value is
    [b"ok"], which a byte key reads, and the text key raises on the first
    value. *)
Lemma getitem_text_decodes_all :
  let self := Headers.mk [("x", [bytes_of [255%N]; "ok"])] in
  Headers.setRawHeaders (Headers.mk []) (Bytes "x")
    (PyList [Bytes (bytes_of [255%N]); Bytes "ok"]) = Ok self
  /\ Headers.hasHeader self (Text (text_of "x")) = Ok true
  /\ _DictHeaders.__getitem__ self (Bytes "x") = Ok (PyStr (Bytes "ok"))
  /\ _DictHeaders.__getitem__ self (Text (text_of "x"))
     = Raise UnicodeDecodeError.
Proof. repeat split; reflexivity. Qed.

(** After [setRawHeaders(b"x", [])] the header is present and its sequence
    has no last element: the read neither returns nor raises the
    missing-key error. *)
Lemma getitem_empty_sequence :
  let self := Headers.mk [("x", [])] in
  Headers.setRawHeaders (Headers.mk []) (Bytes "x") (PyList []) = Ok self
  /\ Headers.hasHeader self (Bytes "x") = Ok true
  /\ _DictHeaders.__getitem__ self (Bytes "x") = Raise IndexError.
Proof. repeat split; reflexivity. Qed.

(* ================================================================== *)
(** * Appending a value *)
(* ================================================================== *)

(** For a name whose encoding, lower-cased as bytes, is its storage key
    (every byte name, every text name that has no letter above U+007F), a
    value is appended to the sequence that reads of the name see, and a
    sequence of one value is created when there is none. *)
Lemma addRawHeader_appends (self : Headers.t) (name value : pystr) (e v : bytes) :
  Headers._encodeName name = Ok e ->
  storage_key name = Ok (bytes_lower e) ->
  Headers._encodeValue value = Ok v ->
  exists self',
    Headers.addRawHeader self name value = Ok self'
    /\ stored self' (bytes_lower e)
       = Some (match stored self (bytes_lower e) with
               | Some l => l ++ [v]
               | None => [v]
               end)
    /\ forall k, k <> bytes_lower e -> stored self' k = stored self k.
Proof.
  intros He _ Hv. rewrite (addRawHeader_Ok self name value e v He Hv).
  eexists. split; [reflexivity |].
  unfold stored. cbn [Headers._rawHeaders]. split.
  - now rewrite dict_get_set, String.eqb_refl.
  - intros k Hne. rewrite dict_get_set.
    apply String.eqb_neq in Hne. now rewrite Hne.
Qed.

(** With byte names, the read that follows gives the former sequence with
    the value at its end. *)
Lemma addRawHeader_bytes_then_get (self : Headers.t) (name value : bytes) :
  exists self',
    Headers.addRawHeader self (Bytes name) (Bytes value) = Ok self'
    /\ Headers.getRawHeaders self' (Bytes name) PyNone
       = Ok (PyList (map Bytes
                       match stored self (bytes_lower name) with
                       | Some l => l ++ [value]
                       | None => [value]
                       end)).
Proof.
  destruct (addRawHeader_appends self (Bytes name) (Bytes value) name value
              eq_refl eq_refl eq_refl) as (self' & Hadd & Hkey & _).
  exists self'. split; [exact Hadd |].
  now rewrite getRawHeaders_bytes, Hkey.
Qed.

(** Two values added under [x] are read back in the order of the calls,
    neither sorted nor merged. *)
Lemma addRawHeader_twice_in_order :
  (self <- Headers.addRawHeader (Headers.mk []) (Bytes "x") (Bytes "a") ;;
   self <- Headers.addRawHeader self (Bytes "x") (Bytes "b") ;;
   Headers.getRawHeaders self (Bytes "x") PyNone)
  = Ok (PyList [Bytes "a"; Bytes "b"])
  /\ (self <- Headers.addRawHeader (Headers.mk []) (Bytes "x") (Bytes "b") ;;
      self <- Headers.addRawHeader self (Bytes "x") (Bytes "a") ;;
      self <- Headers.addRawHeader self (Bytes "x") (Bytes "b") ;;
      Headers.getRawHeaders self (Bytes "x") PyNone)
     = Ok (PyList [Bytes "b"; Bytes "a"; Bytes "b"])
  /\ (self <- Headers.addRawHeader (Headers.mk []) (Text (text_of "x"))
               (Text (text_of "a")) ;;
      self <- Headers.addRawHeader self (Text (text_of "X"))
               (Text (text_of "b")) ;;
      Headers.getRawHeaders self (Text (text_of "x")) PyNone)
     = Ok (PyList [Text (text_of "a"); Text (text_of "b")]).
Proof. repeat split; reflexivity. Qed.

(** C2 at the text name [u"\xc0"] (capital A with grave).  [setRawHeaders],
    [getRawHeaders] and [hasHeader] lower-case the text, which gives
    [u"\xe0"], and store under [b"\xe0"]; [addRawHeader] encodes first and
    lower-cases the bytes, which leaves [b"\xc0"].  The added value goes to
    a second entry and the sequence read under the name is unchanged. *)
Theorem addRawHeader_latin1_name_splits :
  let name := Text [192%N] in
  let self1 := Headers.mk [(bytes_of [224%N], ["a"])] in
  let self2 := Headers.mk [(bytes_of [224%N], ["a"]);
                           (bytes_of [192%N], ["b"])] in
  Headers.setRawHeaders (Headers.mk []) name (PyList [Bytes "a"]) = Ok self1
  /\ Headers.getRawHeaders self1 name PyNone = Ok (PyList [Text (text_of "a")])
  /\ Headers.addRawHeader self1 name (Bytes "b") = Ok self2
  /\ Headers.getRawHeaders self2 name PyNone = Ok (PyList [Text (text_of "a")])
  /\ (self <- Headers.addRawHeader (Headers.mk []) name (Bytes "b") ;;
      Headers.hasHeader self name) = Ok false.
Proof. repeat split; reflexivity. Qed.

(* ================================================================== *)
(** * Values of a present key *)
(* ================================================================== *)

Lemma nonempty_values_set (self : Headers.t) (k : bytes) (vs : list bytes) :
  nonempty_values self -> vs <> [] ->
  nonempty_values (Headers.mk (dict_set k vs (Headers._rawHeaders self))).
Proof.
  unfold nonempty_values, stored. cbn [Headers._rawHeaders].
  intros Hself Hvs k' vs'. rewrite dict_get_set.
  destruct (String.eqb k' k).
  - now intros [= <-].
  - apply Hself.
Qed.

Lemma nonempty_values_pop (self : Headers.t) (k : bytes) :
  nonempty_values self ->
  nonempty_values (Headers.mk (dict_pop k (Headers._rawHeaders self))).
Proof.
  unfold nonempty_values, stored. cbn [Headers._rawHeaders].
  intros Hself k' vs'. rewrite dict_get_pop.
  destruct (String.eqb k' k); [discriminate | apply Hself].
Qed.

Lemma mapM_nonempty {A B : Type} (f : A -> result B) (l : list A) (l' : list B) :
  mapM f l = Ok l' -> l <> [] -> l' <> [].
Proof.
  intros Hm Hl ->. apply mapM_length in Hm. destruct l; [now apply Hl | discriminate].
Qed.

Lemma perform_nonempty_values (self self' : Headers.t) (c : call) :
  gives_values c = true ->
  perform self c = Ok self' ->
  nonempty_values self -> nonempty_values self'.
Proof.
  destruct c as [name values | name value | name]; simpl; intros Hg Hp Hself.
  - apply setRawHeaders_inv in Hp.
    destruct Hp as (l & k & vs & -> & _ & Hvs & ->).
    apply nonempty_values_set; [assumption |].
    apply (mapM_nonempty _ _ _ Hvs). now destruct l.
  - destruct (addRawHeader_inv _ _ _ _ Hp) as (e & v & He & Hv).
    rewrite (addRawHeader_Ok self name value e v He Hv) in Hp.
    injection Hp as <-. apply nonempty_values_set; [assumption |].
    destruct (stored self (bytes_lower e)) as [l |]; [| discriminate].
    now destruct l.
  - unfold Headers.removeHeader in Hp.
    destruct (Headers._encodeName (lower name)) as [k |]; [| discriminate].
    injection Hp as <-. now apply nonempty_values_pop.
Qed.

Lemma run_nonempty_values (calls : list call) :
  forall self self',
    forallb gives_values calls = true ->
    run self calls = Ok self' ->
    nonempty_values self -> nonempty_values self'.
Proof.
  induction calls as [| c rest IH]; intros self self' Hg Hr Hself; simpl in *.
  - now injection Hr as <-.
  - apply andb_true_iff in Hg. destruct Hg as [Hc Hrest].
    destruct (perform self c) as [self1 |] eqn:Hp; [| discriminate].
    apply (IH self1 self' Hrest Hr).
    now apply (perform_nonempty_values self self1 c).
Qed.

Lemma init_items_nonempty_values (items : list (pystr * list pystr)) :
  forall self self',
    forallb (fun kv => match snd kv with [] => false | _ => true end) items
      = true ->
    Headers.init_items self items = Ok self' ->
    nonempty_values self -> nonempty_values self'.
Proof.
  induction items as [| [name values] rest IH]; intros self self' Hg Hi Hself;
    cbn [Headers.init_items forallb snd] in Hg, Hi.
  - now injection Hi as <-.
  - apply andb_true_iff in Hg. destruct Hg as [Hv Hrest].
    destruct (Headers._encodeName name) as [e |]; [| discriminate].
    destruct (Headers._encodeValues values) as [evs |] eqn:Hevs;
      [| discriminate].
    cbn [bind] in Hi.
    rewrite (setRawHeaders_Ok self (Bytes e) (map Bytes evs)
               (bytes_lower e) evs eq_refl (encodeValues_bytes evs)) in Hi.
    cbn [bind] in Hi. apply (IH _ self' Hrest Hi).
    apply nonempty_values_set; [assumption |].
    apply (mapM_nonempty _ _ _ Hevs). now destruct values.
Qed.

(** C10, as the code has it.  In a store built by the constructor and
    then changed by [setRawHeaders], [addRawHeader] and [removeHeader],
    every key has at least one value, provided that no sequence given to
    the constructor or to [setRawHeaders] is empty. *)
Theorem mutators_keep_values_nonempty
        (rawHeaders : option (list (pystr * list pystr))) (calls : list call)
        (self0 self : Headers.t) :
  import_gives_values rawHeaders = true ->
  forallb gives_values calls = true ->
  Headers.__init__ rawHeaders = Ok self0 ->
  run self0 calls = Ok self ->
  nonempty_values self.
Proof.
  intros Himp Hcalls Hinit Hrun.
  apply (run_nonempty_values calls self0 self Hcalls Hrun).
  assert (Hempty : nonempty_values (Headers.mk [])) by (intros k vs; discriminate).
  destruct rawHeaders as [items |]; simpl in *.
  - now apply (init_items_nonempty_values items (Headers.mk []) self0).
  - now injection Hinit as <-.
Qed.

Lemma mutators_keep_values_nonempty_witness :
  import_gives_values (Some [(Text (text_of "Accept"), [Bytes "*/*"])]) = true
  /\ forallb gives_values
       [AddRawHeader (Bytes "X") (Bytes "a");
        SetRawHeaders (Bytes "Y") (PyList [Bytes "b"]);
        RemoveHeader (Bytes "accept")] = true
  /\ Headers.__init__ (Some [(Text (text_of "Accept"), [Bytes "*/*"])])
     = Ok (Headers.mk [("accept", ["*/*"])])
  /\ run (Headers.mk [("accept", ["*/*"])])
       [AddRawHeader (Bytes "X") (Bytes "a");
        SetRawHeaders (Bytes "Y") (PyList [Bytes "b"]);
        RemoveHeader (Bytes "accept")]
     = Ok (Headers.mk [("x", ["a"]); ("y", ["b"])])
  /\ nonempty_values (Headers.mk [("x", ["a"]); ("y", ["b"])]).
Proof.
  do 4 (split; [reflexivity |]).
  apply (mutators_keep_values_nonempty
           (Some [(Text (text_of "Accept"), [Bytes "*/*"])])
           [AddRawHeader (Bytes "X") (Bytes "a");
            SetRawHeaders (Bytes "Y") (PyList [Bytes "b"]);
            RemoveHeader (Bytes "accept")]
           (Headers.mk [("accept", ["*/*"])]));
    reflexivity.
Defined.

(** [setRawHeaders(b"x", [])] on a new store leaves a key with no value. *)
Lemma reachable_empty_values :
  exists self, reachable self /\ ~ nonempty_values self.
Proof.
  exists (Headers.mk [("x", [])]). split.
  - exists None, [SetRawHeaders (Bytes "x") (PyList [])], (Headers.mk []).
    split; reflexivity.
  - intros Hne. now apply (Hne "x" [] eq_refl).
Qed.

(* ================================================================== *)
(** * Comparison *)
(* ================================================================== *)

(** ** Lists under the order of their elements *)

Section Lexicographic.

Variable A : Type.
Variables eqb ltb : A -> A -> bool.

Hypothesis eqb_eq : forall x y, eqb x y = true <-> x = y.
Hypothesis ltb_irrefl : forall x, ltb x x = false.
Hypothesis ltb_trans :
  forall x y z, ltb x y = true -> ltb y z = true -> ltb x z = true.
Hypothesis ltb_total :
  forall x y, ltb x y = false -> ltb y x = false -> x = y.

Lemma eqb_refl_of x : eqb x x = true.
Proof. now apply eqb_eq. Qed.

Lemma list_eqb_eq (a b : list A) : list_eqb eqb a b = true <-> a = b.
Proof.
  revert b. induction a as [| x a IH]; intros [| y b]; simpl;
    try (split; (reflexivity || discriminate)).
  rewrite andb_true_iff, eqb_eq, IH. split.
  - now intros [-> ->].
  - now intros [= -> ->].
Qed.

Lemma list_ltb_irrefl (a : list A) : list_ltb eqb ltb a a = false.
Proof.
  induction a as [| x a IH]; [reflexivity |].
  simpl. now rewrite eqb_refl_of.
Qed.

Lemma list_ltb_trans (a b c : list A) :
  list_ltb eqb ltb a b = true -> list_ltb eqb ltb b c = true ->
  list_ltb eqb ltb a c = true.
Proof.
  revert b c. induction a as [| x a IH]; intros [| y b] [| z c]; simpl;
    try discriminate; try reflexivity.
  destruct (eqb x y) eqn:Hxy.
  - apply eqb_eq in Hxy. subst y.
    destruct (eqb x z); [apply IH | auto].
  - destruct (eqb y z) eqn:Hyz.
    + apply eqb_eq in Hyz. subst z. rewrite Hxy. auto.
    + intros Hlt1 Hlt2. pose proof (ltb_trans x y z Hlt1 Hlt2) as Hxz.
      destruct (eqb x z) eqn:Hxz'; [| exact Hxz].
      apply eqb_eq in Hxz'. subst z.
      now rewrite ltb_irrefl in Hxz.
Qed.

Lemma list_ltb_total (a b : list A) :
  list_ltb eqb ltb a b = false -> list_ltb eqb ltb b a = false -> a = b.
Proof.
  revert b. induction a as [| x a IH]; intros [| y b]; simpl;
    try discriminate; [reflexivity |].
  destruct (eqb x y) eqn:Hxy.
  - apply eqb_eq in Hxy. subst y. rewrite eqb_refl_of.
    intros H1 H2. f_equal. now apply IH.
  - intros H1 H2.
    destruct (eqb y x) eqn:Hyx.
    + apply eqb_eq in Hyx. subst y. now rewrite eqb_refl_of in Hxy.
    + pose proof (ltb_total x y H1 H2) as ->.
      now rewrite eqb_refl_of in Hxy.
Qed.

End Lexicographic.

(** ** Byte strings *)

Lemma N_of_ascii_inj (x y : ascii) : N_of_ascii x = N_of_ascii y -> x = y.
Proof.
  intros He. rewrite <- (ascii_N_embedding x), <- (ascii_N_embedding y).
  now rewrite He.
Qed.

Lemma bytes_ltb_irrefl (a : bytes) : bytes_ltb a a = false.
Proof.
  induction a as [| x a IH]; [reflexivity |].
  simpl. now rewrite Ascii.eqb_refl.
Qed.

Lemma bytes_ltb_trans (a b c : bytes) :
  bytes_ltb a b = true -> bytes_ltb b c = true -> bytes_ltb a c = true.
Proof.
  revert b c. induction a as [| x a IH]; intros [| y b] [| z c]; simpl;
    try discriminate; try reflexivity.
  destruct (Ascii.eqb_spec x y) as [-> | Hxy].
  - destruct (Ascii.eqb y z); [apply IH | auto].
  - destruct (Ascii.eqb_spec y z) as [-> | Hyz].
    + destruct (Ascii.eqb_spec x z) as [-> | _]; [now elim Hxy | auto].
    + intros H1 H2. apply N.ltb_lt in H1, H2.
      destruct (Ascii.eqb_spec x z) as [-> | _]; [lia |].
      apply N.ltb_lt. lia.
Qed.

Lemma bytes_ltb_total (a b : bytes) :
  bytes_ltb a b = false -> bytes_ltb b a = false -> a = b.
Proof.
  revert b. induction a as [| x a IH]; intros [| y b]; simpl;
    try discriminate; [reflexivity |].
  destruct (Ascii.eqb_spec x y) as [-> | Hxy].
  - rewrite Ascii.eqb_refl. intros H1 H2. f_equal. now apply IH.
  - destruct (Ascii.eqb_spec y x) as [-> | _]; [now elim Hxy |].
    intros H1 H2. apply N.ltb_ge in H1, H2.
    elim Hxy. apply N_of_ascii_inj. lia.
Qed.

(** ** Lists of values and items *)

Lemma values_eqb_eq (a b : list bytes) : values_eqb a b = true <-> a = b.
Proof. apply list_eqb_eq, String.eqb_eq. Qed.

Lemma values_ltb_irrefl (a : list bytes) : values_ltb a a = false.
Proof. apply list_ltb_irrefl, String.eqb_eq. Qed.

Lemma values_ltb_trans (a b c : list bytes) :
  values_ltb a b = true -> values_ltb b c = true -> values_ltb a c = true.
Proof.
  apply list_ltb_trans;
    [apply String.eqb_eq | apply bytes_ltb_irrefl | apply bytes_ltb_trans].
Qed.

Lemma values_ltb_total (a b : list bytes) :
  values_ltb a b = false -> values_ltb b a = false -> a = b.
Proof.
  apply list_ltb_total; auto using String.eqb_eq, bytes_ltb_total.
Qed.

Lemma item_eqb_eq (a b : item) : item_eqb a b = true <-> a = b.
Proof.
  destruct a as [ka va], b as [kb vb]. unfold item_eqb. simpl.
  rewrite andb_true_iff, String.eqb_eq, values_eqb_eq. split.
  - now intros [-> ->].
  - now intros [= -> ->].
Qed.

Lemma item_ltb_irrefl (a : item) : item_ltb a a = false.
Proof.
  unfold item_ltb. rewrite String.eqb_refl. apply values_ltb_irrefl.
Qed.

Lemma item_ltb_trans (a b c : item) :
  item_ltb a b = true -> item_ltb b c = true -> item_ltb a c = true.
Proof.
  destruct a as [ka va], b as [kb vb], c as [kc vc]. unfold item_ltb. simpl.
  destruct (String.eqb_spec ka kb) as [-> | Hab].
  - destruct (String.eqb kb kc); [apply values_ltb_trans | auto].
  - destruct (String.eqb_spec kb kc) as [-> | Hbc].
    + destruct (String.eqb_spec ka kc) as [-> | _]; [now elim Hab | auto].
    + intros H1 H2. pose proof (bytes_ltb_trans _ _ _ H1 H2) as H3.
      destruct (String.eqb_spec ka kc) as [-> | _]; [| exact H3].
      now rewrite bytes_ltb_irrefl in H3.
Qed.

Lemma item_ltb_total (a b : item) :
  item_ltb a b = false -> item_ltb b a = false -> a = b.
Proof.
  destruct a as [ka va], b as [kb vb]. unfold item_ltb. simpl.
  destruct (String.eqb_spec ka kb) as [-> | Hab].
  - rewrite String.eqb_refl. intros H1 H2. f_equal. now apply values_ltb_total.
  - destruct (String.eqb_spec kb ka) as [-> | _]; [now elim Hab |].
    intros H1 H2. elim Hab. now apply bytes_ltb_total.
Qed.

(** ** Sorting *)

Lemma item_le_trans (a b c : item) : item_le a b -> item_le b c -> item_le a c.
Proof.
  unfold item_le. intros Hba Hcb.
  destruct (item_ltb c a) eqn:Hca; [| reflexivity].
  destruct (item_ltb a b) eqn:Hab.
  - pose proof (item_ltb_trans _ _ _ Hca Hab) as Hcb'. congruence.
  - pose proof (item_ltb_total _ _ Hab Hba) as ->. congruence.
Qed.

Lemma item_le_antisym (a b : item) : item_le a b -> item_le b a -> a = b.
Proof. unfold item_le. intros Hba Hab. now apply item_ltb_total. Qed.

Lemma item_le_refl (a : item) : item_le a a.
Proof. apply item_ltb_irrefl. Qed.

Lemma sorted_insert_perm (x : item) (l : list item) :
  Permutation (sorted_insert x l) (x :: l).
Proof.
  induction l as [| y l IH]; simpl; [apply Permutation_refl |].
  destruct (item_ltb y x); [| apply Permutation_refl].
  apply perm_trans with (y :: x :: l); [now apply perm_skip | apply perm_swap].
Qed.

Lemma sorted_perm (l : list item) : Permutation (sorted l) l.
Proof.
  induction l as [| x l IH]; simpl; [apply perm_nil |].
  apply perm_trans with (x :: sorted l);
    [apply sorted_insert_perm | now apply perm_skip].
Qed.

Lemma item_ltb_le (a b : item) : item_ltb a b = true -> item_le a b.
Proof.
  unfold item_le. intros Hab.
  destruct (item_ltb b a) eqn:Hba; [| reflexivity].
  pose proof (item_ltb_trans _ _ _ Hab Hba) as Haa.
  now rewrite item_ltb_irrefl in Haa.
Qed.

Lemma sorted_insert_sorted (x : item) (l : list item) :
  StronglySorted item_le l -> StronglySorted item_le (sorted_insert x l).
Proof.
  induction 1 as [| y l Hl IH Hy]; simpl.
  - constructor; [constructor | constructor].
  - destruct (item_ltb y x) eqn:Hyx.
    + constructor; [exact IH |].
      apply (Permutation_Forall (Permutation_sym (sorted_insert_perm x l))).
      constructor; [now apply item_ltb_le | exact Hy].
    + constructor; [now constructor |].
      constructor; [exact Hyx |].
      eapply Forall_impl; [| exact Hy].
      intros z Hz. now apply item_le_trans with y.
Qed.

Lemma sorted_sorted (l : list item) : StronglySorted item_le (sorted l).
Proof.
  induction l as [| x l IH]; simpl; [constructor |].
  now apply sorted_insert_sorted.
Qed.

(** A list has one sorted arrangement. *)
Lemma sorted_unique (l1 l2 : list item) :
  Permutation l1 l2 ->
  StronglySorted item_le l1 -> StronglySorted item_le l2 -> l1 = l2.
Proof.
  intros Hp Hs1. revert l2 Hp.
  induction Hs1 as [| a l1 Hs1 IH Ha]; intros l2 Hp Hs2.
  - now apply Permutation_nil in Hp.
  - destruct Hs2 as [| b l2 Hs2 Hb].
    + apply Permutation_sym, Permutation_nil in Hp. discriminate.
    + assert (Hab : a = b).
      { apply item_le_antisym.
        - assert (Hin : In b (a :: l1))
            by (apply (Permutation_in _ (Permutation_sym Hp)); now left).
          destruct Hin as [-> | Hin]; [apply item_le_refl |].
          rewrite Forall_forall in Ha. now apply Ha.
        - assert (Hin : In a (b :: l2))
            by (apply (Permutation_in _ Hp); now left).
          destruct Hin as [-> | Hin]; [apply item_le_refl |].
          rewrite Forall_forall in Hb. now apply Hb. }
      subst b. f_equal. apply IH; [| exact Hs2].
      now apply Permutation_cons_inv in Hp.
Qed.

Lemma sorted_eq_iff_perm (l1 l2 : list item) :
  sorted l1 = sorted l2 <-> Permutation l1 l2.
Proof.
  split.
  - intros He. apply perm_trans with (sorted l1);
      [apply Permutation_sym, sorted_perm |].
    rewrite He. apply sorted_perm.
  - intros Hp. apply sorted_unique; try apply sorted_sorted.
    apply perm_trans with l1; [apply sorted_perm |].
    apply perm_trans with l2; [exact Hp | apply Permutation_sym, sorted_perm].
Qed.

(** ** Equality of header objects *)

Lemma cmp_zero (a b : list item) : cmp a b = 0%Z <-> a = b.
Proof.
  unfold cmp. split.
  - destruct (list_ltb item_eqb item_ltb a b); [discriminate |].
    destruct (list_eqb item_eqb a b) eqn:He; [| discriminate].
    intros _. now apply (list_eqb_eq _ _ item_eqb_eq).
  - intros ->.
    rewrite (list_ltb_irrefl _ _ _ item_eqb_eq).
    assert (He : list_eqb item_eqb b b = true)
      by now apply (list_eqb_eq _ _ item_eqb_eq).
    now rewrite He.
Qed.

Lemma eq_iff_sorted (h1 h2 : Headers.t) :
  Headers.__eq__ h1 h2 = true
  <-> sorted (dict_items (Headers._rawHeaders h1))
      = sorted (dict_items (Headers._rawHeaders h2)).
Proof.
  unfold Headers.__eq__, Headers.__cmp__. rewrite Z.eqb_eq. apply cmp_zero.
Qed.

Lemma eq_iff_perm (h1 h2 : Headers.t) :
  Headers.__eq__ h1 h2 = true
  <-> Permutation (Headers._rawHeaders h1) (Headers._rawHeaders h2).
Proof. rewrite eq_iff_sorted. apply sorted_eq_iff_perm. Qed.

(** C6.  Two header objects are equal exactly when the sorted lists of
    their items are equal, that is when one dictionary is a rearrangement
    of the other: the order of the entries does not count (two entries
    exchanged, two headers added in either order), the order of the values
    of an entry does ([a, b] against [b, a] is equal only for [a = b]). *)
Theorem eq_sorted_items (h1 h2 : Headers.t) :
  (Headers.__eq__ h1 h2 = true
   <-> sorted (dict_items (Headers._rawHeaders h1))
       = sorted (dict_items (Headers._rawHeaders h2)))
  /\ (Headers.__eq__ h1 h2 = true
      <-> Permutation (Headers._rawHeaders h1) (Headers._rawHeaders h2))
  /\ (forall e1 e2 d,
         Headers.__eq__ (Headers.mk (e1 :: e2 :: d)) (Headers.mk (e2 :: e1 :: d))
         = true)
  /\ (forall k a b d,
         Headers.__eq__ (Headers.mk ((k, [a; b]) :: d))
                        (Headers.mk ((k, [b; a]) :: d))
         = String.eqb a b)
  /\ (s1 <- Headers.addRawHeader (Headers.mk []) (Bytes "a") (Bytes "1") ;;
      s1 <- Headers.addRawHeader s1 (Bytes "b") (Bytes "2") ;;
      s2 <- Headers.addRawHeader (Headers.mk []) (Bytes "b") (Bytes "2") ;;
      s2 <- Headers.addRawHeader s2 (Bytes "a") (Bytes "1") ;;
      Ok (Headers._rawHeaders s1, Headers._rawHeaders s2, Headers.__eq__ s1 s2))
     = Ok ([("a", ["1"]); ("b", ["2"])], [("b", ["2"]); ("a", ["1"])], true).
Proof.
  split; [apply eq_iff_sorted |]. split; [apply eq_iff_perm |].
  split; [| split; [| reflexivity]].
  - intros e1 e2 d. apply eq_iff_perm. apply perm_swap.
  - intros k a b d. destruct (String.eqb_spec a b) as [-> | Hne].
    + apply eq_iff_perm. apply Permutation_refl.
    + destruct (Headers.__eq__ _ _) eqn:He; [| reflexivity].
      apply eq_iff_perm in He. cbn [Headers._rawHeaders] in He.
      assert (dec : forall x y : item, {x = y} + {x <> y})
        by (repeat decide equality).
      pose proof (proj1 (Permutation_count_occ dec _ _) He (k, [a; b])) as Hc.
      clear He. rename Hc into He.
      rewrite count_occ_cons_eq in He by reflexivity.
      rewrite count_occ_cons_neq in He by congruence.
      lia.
Qed.

(* ================================================================== *)
(** * The UTF-8 round trip *)
(* ================================================================== *)

(** One step of the decoder. *)
Lemma utf8_decode_cons (c0 : ascii) (s1 : bytes) :
  utf8_decode (String c0 s1)
  = let b0 := N_of_ascii c0 in
    if (b0 <? 128)%N then
      bind (utf8_decode s1) (fun u => Ok (b0 :: u))
    else if (b0 <? 192)%N then Raise UnicodeDecodeError
    else if (b0 <? 224)%N then
      match s1 with
      | String c1 s2 =>
          let cp := ((b0 - 192) * 64 + cont_bits c1)%N in
          if is_cont c1 && (128 <=? cp)%N
          then bind (utf8_decode s2) (fun u => Ok (cp :: u))
          else Raise UnicodeDecodeError
      | _ => Raise UnicodeDecodeError
      end
    else if (b0 <? 240)%N then
      match s1 with
      | String c1 (String c2 s3) =>
          let cp := ((b0 - 224) * 4096 + cont_bits c1 * 64
                     + cont_bits c2)%N in
          if is_cont c1 && is_cont c2 && (2048 <=? cp)%N
             && negb ((55296 <=? cp) && (cp <=? 57343))%N
          then bind (utf8_decode s3) (fun u => Ok (cp :: u))
          else Raise UnicodeDecodeError
      | _ => Raise UnicodeDecodeError
      end
    else if (b0 <? 248)%N then
      match s1 with
      | String c1 (String c2 (String c3 s4)) =>
          let cp := ((b0 - 240) * 262144 + cont_bits c1 * 4096
                     + cont_bits c2 * 64 + cont_bits c3)%N in
          if is_cont c1 && is_cont c2 && is_cont c3
             && (65536 <=? cp)%N && (cp <? 1114112)%N
          then bind (utf8_decode s4) (fun u => Ok (cp :: u))
          else Raise UnicodeDecodeError
      | _ => Raise UnicodeDecodeError
      end
    else Raise UnicodeDecodeError.
Proof. reflexivity. Qed.

(** Comparisons whose outcome follows from the hypotheses. *)
Ltac decide_tests :=
  repeat match goal with
         | |- context [(?a <? ?b)%N] =>
             first [ replace (a <? b)%N with true
                       by (symmetry; apply N.ltb_lt; lia)
                   | replace (a <? b)%N with false
                       by (symmetry; apply N.ltb_ge; lia) ]
         | |- context [(?a <=? ?b)%N] =>
             first [ replace (a <=? b)%N with true
                       by (symmetry; apply N.leb_le; lia)
                   | replace (a <=? b)%N with false
                       by (symmetry; apply N.leb_gt; lia) ]
         end.

Lemma is_cont_of_N (b : N) :
  (128 <= b < 192)%N -> is_cont (ascii_of_N b) = true.
Proof.
  intros Hb. unfold is_cont. rewrite N_ascii_embedding by lia.
  decide_tests. reflexivity.
Qed.

Lemma cont_bits_of_N (b : N) :
  (128 <= b < 192)%N -> cont_bits (ascii_of_N b) = (b - 128)%N.
Proof. intros Hb. unfold cont_bits. now rewrite N_ascii_embedding by lia. Qed.

Lemma utf8_decode_1 (b0 : N) (s : bytes) :
  (b0 < 128)%N ->
  utf8_decode (String (ascii_of_N b0) s)
  = bind (utf8_decode s) (fun u => Ok (b0 :: u)).
Proof.
  intros H0. rewrite utf8_decode_cons. cbv zeta.
  rewrite N_ascii_embedding by lia. decide_tests. reflexivity.
Qed.

Lemma utf8_decode_2 (b0 b1 : N) (s : bytes) :
  (192 <= b0 < 224)%N -> (128 <= b1 < 192)%N ->
  (128 <= (b0 - 192) * 64 + (b1 - 128))%N ->
  utf8_decode (String (ascii_of_N b0) (String (ascii_of_N b1) s))
  = bind (utf8_decode s)
         (fun u => Ok (((b0 - 192) * 64 + (b1 - 128))%N :: u)).
Proof.
  intros H0 H1 Hcp. rewrite utf8_decode_cons. cbv zeta.
  rewrite N_ascii_embedding by lia.
  rewrite is_cont_of_N, cont_bits_of_N by lia.
  decide_tests. reflexivity.
Qed.

Lemma utf8_decode_3 (b0 b1 b2 : N) (s : bytes) :
  (224 <= b0 < 240)%N -> (128 <= b1 < 192)%N -> (128 <= b2 < 192)%N ->
  let cp := ((b0 - 224) * 4096 + (b1 - 128) * 64 + (b2 - 128))%N in
  (2048 <= cp)%N -> ~ (55296 <= cp <= 57343)%N ->
  utf8_decode (String (ascii_of_N b0)
                 (String (ascii_of_N b1) (String (ascii_of_N b2) s)))
  = bind (utf8_decode s) (fun u => Ok (cp :: u)).
Proof.
  intros H0 H1 H2 cp Hcp Hsur. subst cp. rewrite utf8_decode_cons. cbv zeta.
  rewrite N_ascii_embedding by lia.
  rewrite !is_cont_of_N, !cont_bits_of_N by lia.
  replace (N.leb 2048 _) with true by (symmetry; apply N.leb_le; lia).
  cbn [andb].
  destruct (N.leb_spec 55296
              ((b0 - 224) * 4096 + (b1 - 128) * 64 + (b2 - 128)));
    destruct (N.leb_spec
                ((b0 - 224) * 4096 + (b1 - 128) * 64 + (b2 - 128)) 57343);
    cbn [andb negb]; try lia; decide_tests; reflexivity.
Qed.

Lemma utf8_decode_4 (b0 b1 b2 b3 : N) (s : bytes) :
  (240 <= b0 < 248)%N ->
  (128 <= b1 < 192)%N -> (128 <= b2 < 192)%N -> (128 <= b3 < 192)%N ->
  let cp := ((b0 - 240) * 262144 + (b1 - 128) * 4096 + (b2 - 128) * 64
             + (b3 - 128))%N in
  (65536 <= cp < 1114112)%N ->
  utf8_decode (String (ascii_of_N b0)
                 (String (ascii_of_N b1)
                    (String (ascii_of_N b2) (String (ascii_of_N b3) s))))
  = bind (utf8_decode s) (fun u => Ok (cp :: u)).
Proof.
  intros H0 H1 H2 H3 cp Hcp. subst cp. rewrite utf8_decode_cons. cbv zeta.
  rewrite N_ascii_embedding by lia.
  rewrite !is_cont_of_N, !cont_bits_of_N by lia.
  decide_tests. reflexivity.
Qed.

(** The digits of a code point in base 64. *)
Lemma base64_digits (c : N) :
  exists d0 d1 d2 d3 : N,
    (c mod 64 = d0 /\ (c / 64) mod 64 = d1 /\ (c / 4096) mod 64 = d2
     /\ c / 262144 = d3
     /\ c / 64 = d1 + 64 * (c / 4096) /\ c / 4096 = d2 + 64 * d3
     /\ c = d0 + 64 * (c / 64)
     /\ d0 < 64 /\ d1 < 64 /\ d2 < 64)%N.
Proof.
  exists (c mod 64)%N, ((c / 64) mod 64)%N, ((c / 4096) mod 64)%N,
         (c / 262144)%N.
  pose proof (N.div_mod c 64 ltac:(discriminate)) as E0.
  pose proof (N.div_mod (c / 64) 64 ltac:(discriminate)) as E1.
  pose proof (N.div_mod (c / 4096) 64 ltac:(discriminate)) as E2.
  rewrite N.Div0.div_div in E1. rewrite N.Div0.div_div in E2.
  change (64 * 64)%N with 4096%N in E1.
  change (4096 * 64)%N with 262144%N in E2.
  pose proof (N.mod_lt c 64 ltac:(discriminate)).
  pose proof (N.mod_lt (c / 64) 64 ltac:(discriminate)).
  pose proof (N.mod_lt (c / 4096) 64 ltac:(discriminate)).
  repeat split; try assumption; try reflexivity.
  - rewrite E1 at 1. apply N.add_comm.
  - rewrite E2 at 1. apply N.add_comm.
  - rewrite E0 at 1. apply N.add_comm.
Qed.

Lemma Some_inj {A : Type} (x y : A) : Some x = Some y -> x = y.
Proof. congruence. Qed.

(** Decoding the bytes of one code point gives it back, whatever
    follows. *)
Lemma utf8_decode_prepend (c : N) (bs : list ascii) (s : bytes) :
  utf8_encode_cp c = Some bs ->
  utf8_decode (prepend bs s) = bind (utf8_decode s) (fun u => Ok (c :: u)).
Proof.
  unfold utf8_encode_cp.
  destruct (base64_digits c)
    as (d0 & d1 & d2 & d3 & E0 & E1 & E2 & E3 & Q1 & Q2 & Q0 & B0 & B1 & B2).
  rewrite E0, E1, E2, E3.
  destruct (N.ltb_spec c 128) as [H1 | H1].
  { intros Hbs; apply Some_inj in Hbs; subst bs. cbn [prepend]. now apply utf8_decode_1. }
  destruct (N.ltb_spec c 2048) as [H2 | H2].
  { intros Hbs; apply Some_inj in Hbs; subst bs. cbn [prepend].
    assert (Hq : (c / 64 < 32)%N) by lia.
    rewrite utf8_decode_2 by lia.
    replace ((192 + c / 64 - 192) * 64 + (128 + d0 - 128))%N with c by lia.
    reflexivity. }
  destruct (N.ltb_spec c 65536) as [H3 | H3].
  { destruct (N.leb_spec 55296 c) as [S1 | S1];
      destruct (N.leb_spec c 57343) as [S2 | S2]; cbn [andb];
      try discriminate; intros Hbs; apply Some_inj in Hbs; subst bs; cbn [prepend];
      (assert (Hc : ((224 + c / 4096 - 224) * 4096 + (128 + d1 - 128) * 64
                     + (128 + d0 - 128))%N = c) by lia);
      (rewrite utf8_decode_3 by (cbv zeta; lia));
      cbv zeta; rewrite Hc; reflexivity. }
  destruct (N.ltb_spec c 1114112) as [H4 | H4]; [| discriminate].
  intros Hbs; apply Some_inj in Hbs; subst bs. cbn [prepend].
  assert (Hc : ((240 + d3 - 240) * 262144 + (128 + d2 - 128) * 4096
                + (128 + d1 - 128) * 64 + (128 + d0 - 128))%N = c) by lia.
  rewrite utf8_decode_4 by (cbv zeta; lia).
  cbv zeta. rewrite Hc. reflexivity.
Qed.

(** Text that encodes is decoded from its encoding. *)
Lemma utf8_decode_encode (t : unicode) (b : bytes) :
  utf8_encode t = Ok b -> utf8_decode b = Ok t.
Proof.
  revert b. induction t as [| c t IH]; intros b; simpl.
  - now intros [= <-].
  - destruct (utf8_encode_cp c) as [bs |] eqn:Hc; [| discriminate].
    destruct (utf8_encode t) as [s |]; [| discriminate].
    cbn [bind]. intros [= <-].
    rewrite (utf8_decode_prepend c bs s Hc), (IH s eq_refl). reflexivity.
Qed.

(* ================================================================== *)
(** * Setting, then reading *)
(* ================================================================== *)

Lemma decode_encoded_values (values : list pystr) (vs : list bytes) :
  Headers._encodeValues values = Ok vs ->
  mapM utf8_decode vs = mapM as_text values.
Proof.
  unfold Headers._encodeValues. revert vs.
  induction values as [| value values IH]; intros vs; simpl.
  - now intros [= <-].
  - destruct (Headers._encodeValue value) as [b |] eqn:Hb; [| discriminate].
    destruct (mapM Headers._encodeValue values) as [bs |]; [| discriminate].
    cbn [bind]. intros Hvs. apply (f_equal (fun r => match r with
                                                    | Ok l => l
                                                    | Raise _ => []
                                                    end)) in Hvs.
    subst vs. cbn [mapM]. rewrite (IH bs eq_refl).
    destruct value as [b' | t]; simpl in Hb.
    + apply (f_equal (fun r => match r with Ok l => l | Raise _ => b end)) in Hb.
      now subst b'.
    + now rewrite (utf8_decode_encode t b Hb).
Qed.

Lemma encodeValues_as_bytes (values : list pystr) :
  Headers._encodeValues values = mapM as_bytes values.
Proof.
  unfold Headers._encodeValues. apply mapM_ext. now intros [b | t] _.
Qed.

(** The read that follows a write, for every kind of name and values. *)
Lemma get_after_set
      (self self' : Headers.t) (name : pystr) (values : list pystr)
      (default : object) :
  Headers.setRawHeaders self name (PyList values) = Ok self' ->
  Headers.getRawHeaders self' name default = read_back name values.
Proof.
  intros Hset. apply setRawHeaders_inv in Hset.
  destruct Hset as (l & k & vs & Hl & Hk & Hvs & ->).
  apply (f_equal (fun o => match o with PyList x => x | _ => [] end)) in Hl.
  subst l.
  rewrite (getRawHeaders_key _ name default k Hk).
  unfold stored. cbn [Headers._rawHeaders].
  rewrite dict_get_set, String.eqb_refl.
  destruct name as [b | t]; cbn [is_unicode read_back].
  - rewrite <- encodeValues_as_bytes, Hvs. reflexivity.
  - now rewrite (decode_encoded_values values vs Hvs).
Qed.

(** Values of the kind of the name are read back as they were given. *)
Lemma get_after_set_bytes
      (self self' : Headers.t) (name : bytes) (values : list bytes) :
  Headers.setRawHeaders self (Bytes name) (PyList (map Bytes values)) = Ok self' ->
  Headers.getRawHeaders self' (Bytes name) PyNone
  = Ok (PyList (map Bytes values)).
Proof.
  intros Hset. rewrite (get_after_set _ _ _ _ PyNone Hset).
  cbn [read_back]. rewrite mapM_map. simpl. now rewrite mapM_Ok.
Qed.

Lemma get_after_set_text
      (self self' : Headers.t) (name : unicode) (values : list unicode) :
  Headers.setRawHeaders self (Text name) (PyList (map Text values)) = Ok self' ->
  Headers.getRawHeaders self' (Text name) PyNone
  = Ok (PyList (map Text values)).
Proof.
  intros Hset. rewrite (get_after_set _ _ _ _ PyNone Hset).
  cbn [read_back]. rewrite mapM_map. simpl. now rewrite mapM_Ok.
Qed.

(** C1, as the code has it.  When [setRawHeaders(n, v)] returns, a
    following [getRawHeaders(n)] gives [v] in the kind of [n]: for a byte
    name, the byte values as they are and the text values encoded; for a
    text name, the text values as they are and the byte values decoded, or
    the decoding error when a byte value is not UTF-8. *)
Theorem setRawHeaders_getRawHeaders
        (self self' : Headers.t) (name : pystr) (values : list pystr)
        (default : object) :
  Headers.setRawHeaders self name (PyList values) = Ok self' ->
  Headers.getRawHeaders self' name default
  = match name with
    | Bytes _ => bs <- mapM as_bytes values ;; Ok (PyList (map Bytes bs))
    | Text _ => us <- mapM as_text values ;; Ok (PyList (map Text us))
    end.
Proof. intros Hset. now rewrite (get_after_set self self' name values default). Qed.

Lemma setRawHeaders_getRawHeaders_witness :
  Headers.setRawHeaders (Headers.mk [("accept", ["*/*"])])
    (Text (text_of "Set-Cookie")) (PyList [Text [8364%N; 49%N]; Bytes "b=2"])
  = Ok (Headers.mk [("accept", ["*/*"]);
                    ("set-cookie", [bytes_of [226; 130; 172; 49]%N; "b=2"])])
  /\ Headers.getRawHeaders
       (Headers.mk [("accept", ["*/*"]);
                    ("set-cookie", [bytes_of [226; 130; 172; 49]%N; "b=2"])])
       (Text (text_of "Set-Cookie")) PyNone
     = Ok (PyList [Text [8364%N; 49%N]; Text (text_of "b=2")]).
Proof.
  split; [reflexivity |].
  exact (setRawHeaders_getRawHeaders
           (Headers.mk [("accept", ["*/*"])]) _
           (Text (text_of "Set-Cookie")) [Text [8364%N; 49%N]; Bytes "b=2"]
           PyNone eq_refl).
Defined.

(** A byte value that is not UTF-8 is stored under a text name, and the
    read with that name returns no sequence at all. *)
Lemma setRawHeaders_getRawHeaders_undecodable :
  exists self',
    Headers.setRawHeaders (Headers.mk []) (Text (text_of "x"))
      (PyList [Bytes (bytes_of [255%N])]) = Ok self'
    /\ Headers.getRawHeaders self' (Text (text_of "x")) PyNone
       = Raise UnicodeDecodeError.
Proof.
  exists (Headers.mk [("x", [bytes_of [255%N]])]).
  split; reflexivity.
Qed.

(* ================================================================== *)
(** * Supplements *)
(* ================================================================== *)

(** ** Text names in ASCII *)

Lemma cp_lower_ascii (a : ascii) :
  (N_of_ascii a <? 128)%N = true ->
  cp_lower (N_of_ascii a) = N_of_ascii (ascii_lower a).
Proof. destruct a as [[] [] [] [] [] [] [] []]; (reflexivity || discriminate). Qed.

(** A text name in ASCII has the storage key of its encoding: the two
    orders of lower-casing and encoding agree on it. *)
Lemma storage_key_ascii_text (t : unicode) (e : bytes) :
  Headers._encodeName (Text t) = Ok e ->
  ascii_only e = true ->
  storage_key (Text t) = Ok (bytes_lower e).
Proof.
  simpl. intros He. apply latin1_decode_encode in He. subst t.
  unfold storage_key. simpl. unfold unicode_lower, bytes_lower.
  induction e as [| c r IH]; [reflexivity |].
  simpl. intros Ha. apply andb_true_iff in Ha. destruct Ha as [Hc Hr].
  rewrite (cp_lower_ascii c Hc).
  pose proof (N_ascii_bounded (ascii_lower c)) as Hb.
  apply N.ltb_lt in Hb. rewrite Hb, (IH Hr). simpl.
  now rewrite ascii_N_embedding.
Qed.

(** ** One entry per key *)

Lemma dict_set_keys_nodup {V : Type} (k : bytes) (v : V) (d : dict V) :
  NoDup (dict_keys d) -> NoDup (dict_keys (dict_set k v d)).
Proof.
  intros Hd. destruct (dict_contains k d) eqn:Hc.
  - now rewrite dict_keys_set_present.
  - rewrite dict_keys_set_absent by assumption.
    apply NoDup_app; [assumption | repeat constructor; intros [] |].
    intros x Hx [Hk | []]. subst x. unfold dict_contains in Hc.
    unfold dict_keys in Hx. apply in_map_iff in Hx.
    destruct Hx as ([k' v'] & Hk & Hin). simpl in Hk. subst k'.
    clear Hd. induction d as [| [k0 v0] d IH]; [contradiction |].
    simpl in Hc. destruct (String.eqb_spec k k0) as [-> | Hne];
      [discriminate |].
    destruct Hin as [[= -> ->] | Hin]; [now elim Hne | now apply IH].
Qed.

Lemma dict_pop_keys_incl {V : Type} (k x : bytes) (d : dict V) :
  In x (dict_keys (dict_pop k d)) -> In x (dict_keys d).
Proof.
  unfold dict_keys. induction d as [| [k0 v0] d IH]; simpl; [auto |].
  destruct (String.eqb k k0); simpl; intuition.
Qed.

Lemma dict_pop_keys_nodup {V : Type} (k : bytes) (d : dict V) :
  NoDup (dict_keys d) -> NoDup (dict_keys (dict_pop k d)).
Proof.
  unfold dict_keys. induction d as [| [k0 v0] d IH]; simpl; [auto |].
  intros Hd. apply NoDup_cons_iff in Hd. destruct Hd as [Hn Hd].
  destruct (String.eqb k k0); [now apply IH |].
  simpl. constructor; [| now apply IH].
  intros Hin. apply Hn. now apply (dict_pop_keys_incl k).
Qed.

Lemma perform_keys_unique (self self' : Headers.t) (c : call) :
  perform self c = Ok self' -> keys_unique self -> keys_unique self'.
Proof.
  unfold keys_unique.
  destruct c as [name values | name value | name]; simpl; intros Hp Hself.
  - apply setRawHeaders_inv in Hp.
    destruct Hp as (l & k & vs & _ & _ & _ & ->).
    now apply dict_set_keys_nodup.
  - destruct (addRawHeader_inv _ _ _ _ Hp) as (e & v & He & Hv).
    rewrite (addRawHeader_Ok self name value e v He Hv) in Hp.
    apply (f_equal (fun r => match r with Ok h => h | Raise _ => self end))
      in Hp.
    subst self'. now apply dict_set_keys_nodup.
  - unfold Headers.removeHeader in Hp.
    destruct (Headers._encodeName (lower name)) as [k |]; [| discriminate].
    apply (f_equal (fun r => match r with Ok h => h | Raise _ => self end))
      in Hp.
    subst self'. now apply dict_pop_keys_nodup.
Qed.

Lemma run_keys_unique (calls : list call) :
  forall self self',
    run self calls = Ok self' -> keys_unique self -> keys_unique self'.
Proof.
  induction calls as [| c rest IH]; intros self self' Hr Hself; simpl in Hr.
  - apply (f_equal (fun r => match r with Ok h => h | Raise _ => self end))
      in Hr.
    now subst self'.
  - destruct (perform self c) as [self1 |] eqn:Hp; [| discriminate].
    apply (IH self1 self' Hr). now apply (perform_keys_unique self self1 c).
Qed.

Lemma init_items_keys_unique (items : list (pystr * list pystr)) :
  forall self self',
    Headers.init_items self items = Ok self' ->
    keys_unique self -> keys_unique self'.
Proof.
  induction items as [| [name values] rest IH]; intros self self' Hi Hself;
    cbn [Headers.init_items] in Hi.
  - apply (f_equal (fun r => match r with Ok h => h | Raise _ => self end))
      in Hi.
    now subst self'.
  - destruct (Headers._encodeName name) as [e |]; [| discriminate].
    destruct (Headers._encodeValues values) as [evs |]; [| discriminate].
    cbn [bind] in Hi.
    rewrite (setRawHeaders_Ok self (Bytes e) (map Bytes evs)
               (bytes_lower e) evs eq_refl (encodeValues_bytes evs)) in Hi.
    cbn [bind] in Hi. apply (IH _ self' Hi).
    now apply dict_set_keys_nodup.
Qed.

(** Every store that the constructor and the mutators produce has one
    entry per key. *)
Lemma reachable_keys_unique (self : Headers.t) :
  reachable self -> keys_unique self.
Proof.
  intros (rawHeaders & calls & self0 & Hinit & Hrun).
  apply (run_keys_unique calls self0 self Hrun).
  assert (Hempty : keys_unique (Headers.mk [])) by constructor.
  destruct rawHeaders as [items |]; simpl in Hinit.
  - now apply (init_items_keys_unique items (Headers.mk []) self0).
  - apply (f_equal (fun r => match r with
                             | Ok h => h
                             | Raise _ => Headers.mk []
                             end)) in Hinit.
    now subst self0.
Qed.

(** ** Equality as equality of mappings *)

Lemma dict_get_iff_in {V : Type} (k : bytes) (v : V) (d : dict V) :
  NoDup (dict_keys d) -> (dict_get k d = Some v <-> In (k, v) d).
Proof.
  intros Hd. split; [apply dict_get_in |].
  unfold dict_keys in Hd. induction d as [| [k0 v0] d IH]; [contradiction |].
  simpl in Hd. apply NoDup_cons_iff in Hd. destruct Hd as [Hn Hd].
  intros [[= -> ->] | Hin]; simpl.
  - now rewrite String.eqb_refl.
  - destruct (String.eqb_spec k k0) as [-> | _]; [| now apply IH].
    elim Hn. apply in_map_iff. now exists (k0, v).
Qed.

Lemma keys_nodup_items {V : Type} (d : dict V) :
  NoDup (dict_keys d) -> NoDup d.
Proof. apply NoDup_map_inv. Qed.

Lemma perm_iff_same_lookup {V : Type} (d1 d2 : dict V) :
  NoDup (dict_keys d1) -> NoDup (dict_keys d2) ->
  (Permutation d1 d2 <-> forall k, dict_get k d1 = dict_get k d2).
Proof.
  intros H1 H2. split.
  - intros Hp k.
    destruct (dict_get k d1) as [v |] eqn:Hg1.
    + apply (dict_get_iff_in k v d1 H1) in Hg1. symmetry.
      apply (dict_get_iff_in k v d2 H2). now apply (Permutation_in _ Hp).
    + destruct (dict_get k d2) as [v |] eqn:Hg2; [| reflexivity].
      apply (dict_get_iff_in k v d2 H2) in Hg2.
      apply (Permutation_in _ (Permutation_sym Hp)) in Hg2.
      apply (dict_get_iff_in k v d1 H1) in Hg2. congruence.
  - intros Hl. apply NoDup_Permutation; try now apply keys_nodup_items.
    intros [k v]. rewrite <- (dict_get_iff_in k v d1 H1).
    rewrite <- (dict_get_iff_in k v d2 H2). now rewrite Hl.
Qed.

(** Two stores with one entry per key are equal exactly when every name
    has the same sequence of values in both. *)
Lemma eq_iff_same_mapping (h1 h2 : Headers.t) :
  keys_unique h1 -> keys_unique h2 ->
  (Headers.__eq__ h1 h2 = true <-> forall k, stored h1 k = stored h2 k).
Proof.
  intros H1 H2. rewrite eq_iff_perm. now apply perm_iff_same_lookup.
Qed.

(** Two headers with different names, added to a store in either order,
    give equal stores. *)
Lemma addRawHeader_order_irrelevant
      (self : Headers.t) (n1 v1 n2 v2 : bytes) :
  keys_unique self ->
  bytes_lower n1 <> bytes_lower n2 ->
  exists s12 s21,
    (s <- Headers.addRawHeader self (Bytes n1) (Bytes v1) ;;
     Headers.addRawHeader s (Bytes n2) (Bytes v2)) = Ok s12
    /\ (s <- Headers.addRawHeader self (Bytes n2) (Bytes v2) ;;
        Headers.addRawHeader s (Bytes n1) (Bytes v1)) = Ok s21
    /\ Headers.__eq__ s12 s21 = true.
Proof.
  intros Hu Hne.
  rewrite (addRawHeader_Ok self (Bytes n1) (Bytes v1) n1 v1 eq_refl eq_refl).
  rewrite (addRawHeader_Ok self (Bytes n2) (Bytes v2) n2 v2 eq_refl eq_refl).
  cbn [bind].
  rewrite (addRawHeader_Ok _ (Bytes n2) (Bytes v2) n2 v2 eq_refl eq_refl).
  rewrite (addRawHeader_Ok _ (Bytes n1) (Bytes v1) n1 v1 eq_refl eq_refl).
  do 2 eexists. split; [reflexivity |]. split; [reflexivity |].
  apply eq_iff_same_mapping.
  - unfold keys_unique. cbn [Headers._rawHeaders].
    now do 2 apply dict_set_keys_nodup.
  - unfold keys_unique. cbn [Headers._rawHeaders].
    now do 2 apply dict_set_keys_nodup.
  - intros k. unfold stored. cbn [Headers._rawHeaders].
    rewrite !dict_get_set.
    assert (H12 : String.eqb (bytes_lower n1) (bytes_lower n2) = false)
      by now apply String.eqb_neq.
    assert (H21 : String.eqb (bytes_lower n2) (bytes_lower n1) = false)
      by (apply String.eqb_neq; congruence).
    rewrite H12, H21.
    destruct (String.eqb_spec k (bytes_lower n2)) as [-> | Hk2].
    + now rewrite H21.
    + reflexivity.
Qed.

(* ================================================================== *)
(** * Normalized keys *)
(* ================================================================== *)

Lemma cp_lower_not_upper (c : N) : ~ (65 <= cp_lower c <= 90)%N.
Proof.
  unfold cp_lower.
  destruct (N.leb_spec 65 c); destruct (N.leb_spec c 90); cbn [andb];
    try lia;
    destruct (N.leb_spec 192 c); destruct (N.leb_spec c 222);
    destruct (N.eqb_spec c 215); cbn [andb negb]; try lia;
    destruct (N.eqb_spec c 376); try lia;
    destruct (N.eqb_spec c 7838); try lia;
    destruct (N.eqb_spec c 8490); try lia;
    destruct (N.eqb_spec c 8491); lia.
Qed.

Lemma ascii_lower_of_cp_lower (c : N) :
  (cp_lower c < 256)%N ->
  ascii_lower (ascii_of_N (cp_lower c)) = ascii_of_N (cp_lower c).
Proof.
  intros Hc. unfold ascii_lower, is_ascii_upper.
  rewrite N_ascii_embedding by assumption.
  pose proof (cp_lower_not_upper c) as Hn.
  destruct (N.leb_spec 65 (cp_lower c)); destruct (N.leb_spec (cp_lower c) 90);
    cbn [andb]; try reflexivity.
  lia.
Qed.

(** A storage key is its own lower case, as bytes. *)
Lemma storage_key_lower (name : pystr) (k : bytes) :
  storage_key name = Ok k -> bytes_lower k = k.
Proof.
  unfold storage_key. destruct name as [b | t]; simpl.
  - intros Hk. apply (f_equal (fun r => match r with Ok x => x | Raise _ => k end)) in Hk.
    subst k. apply bytes_lower_idem.
  - unfold unicode_lower. revert k.
    induction t as [| c t IH]; intros k; simpl.
    + intros Hk. apply (f_equal (fun r => match r with Ok x => x | Raise _ => k end)) in Hk.
      now subst k.
    + destruct (N.ltb_spec (cp_lower c) 256) as [Hc | Hc]; [| discriminate].
      destruct (latin1_encode (map cp_lower t)) as [s |]; [| discriminate].
      cbn [bind]. intros Hk.
      apply (f_equal (fun r => match r with Ok x => x | Raise _ => k end)) in Hk.
      subst k. unfold bytes_lower. cbn [bytes_map].
      rewrite (ascii_lower_of_cp_lower c Hc). f_equal. now apply IH.
Qed.

Lemma dict_set_keys_in {V : Type} (k x : bytes) (v : V) (d : dict V) :
  In x (dict_keys (dict_set k v d)) -> x = k \/ In x (dict_keys d).
Proof.
  destruct (dict_contains k d) eqn:Hc.
  - rewrite dict_keys_set_present by assumption. now right.
  - rewrite dict_keys_set_absent by assumption. intros Hin.
    apply in_app_or in Hin. destruct Hin as [Hin | [<- | []]];
      [now right | now left].
Qed.

Lemma keys_lower_set (self : Headers.t) (k : bytes) (vs : list bytes) :
  bytes_lower k = k -> keys_lower self ->
  keys_lower (Headers.mk (dict_set k vs (Headers._rawHeaders self))).
Proof.
  unfold keys_lower. cbn [Headers._rawHeaders]. intros Hk Hself.
  apply Forall_forall. intros x Hx. apply dict_set_keys_in in Hx.
  destruct Hx as [-> | Hx]; [exact Hk |].
  rewrite Forall_forall in Hself. now apply Hself.
Qed.

Lemma keys_lower_pop (self : Headers.t) (k : bytes) :
  keys_lower self ->
  keys_lower (Headers.mk (dict_pop k (Headers._rawHeaders self))).
Proof.
  unfold keys_lower. cbn [Headers._rawHeaders]. intros Hself.
  apply Forall_forall. intros x Hx. apply dict_pop_keys_incl in Hx.
  rewrite Forall_forall in Hself. now apply Hself.
Qed.

Lemma perform_keys_lower (self self' : Headers.t) (c : call) :
  perform self c = Ok self' -> keys_lower self -> keys_lower self'.
Proof.
  destruct c as [name values | name value | name]; simpl; intros Hp Hself.
  - apply setRawHeaders_inv in Hp.
    destruct Hp as (l & k & vs & _ & Hk & _ & ->).
    apply keys_lower_set; [now apply (storage_key_lower name) | assumption].
  - destruct (addRawHeader_inv _ _ _ _ Hp) as (e & v & He & Hv).
    rewrite (addRawHeader_Ok self name value e v He Hv) in Hp.
    apply (f_equal (fun r => match r with Ok h => h | Raise _ => self end))
      in Hp.
    subst self'. apply keys_lower_set; [apply bytes_lower_idem | assumption].
  - unfold Headers.removeHeader in Hp.
    destruct (Headers._encodeName (lower name)) as [k |]; [| discriminate].
    apply (f_equal (fun r => match r with Ok h => h | Raise _ => self end))
      in Hp.
    subst self'. now apply keys_lower_pop.
Qed.

Lemma run_keys_lower (calls : list call) :
  forall self self',
    run self calls = Ok self' -> keys_lower self -> keys_lower self'.
Proof.
  induction calls as [| c rest IH]; intros self self' Hr Hself; simpl in Hr.
  - apply (f_equal (fun r => match r with Ok h => h | Raise _ => self end))
      in Hr.
    now subst self'.
  - destruct (perform self c) as [self1 |] eqn:Hp; [| discriminate].
    apply (IH self1 self' Hr). now apply (perform_keys_lower self self1 c).
Qed.

Lemma init_items_keys_lower (items : list (pystr * list pystr)) :
  forall self self',
    Headers.init_items self items = Ok self' ->
    keys_lower self -> keys_lower self'.
Proof.
  induction items as [| [name values] rest IH]; intros self self' Hi Hself;
    cbn [Headers.init_items] in Hi.
  - apply (f_equal (fun r => match r with Ok h => h | Raise _ => self end))
      in Hi.
    now subst self'.
  - destruct (Headers._encodeName name) as [e |]; [| discriminate].
    destruct (Headers._encodeValues values) as [evs |]; [| discriminate].
    cbn [bind] in Hi.
    rewrite (setRawHeaders_Ok self (Bytes e) (map Bytes evs)
               (bytes_lower e) evs eq_refl (encodeValues_bytes evs)) in Hi.
    cbn [bind] in Hi. apply (IH _ self' Hi).
    apply keys_lower_set; [apply bytes_lower_idem | assumption].
Qed.

(** What every history of a store gives: one entry per key, keys in
    lower case. *)
Lemma history_keys (rawHeaders : option (list (pystr * list pystr)))
      (calls : list call) (self0 self : Headers.t) :
  Headers.__init__ rawHeaders = Ok self0 ->
  run self0 calls = Ok self ->
  keys_unique self /\ keys_lower self.
Proof.
  intros Hinit Hrun. split.
  - apply reachable_keys_unique. now exists rawHeaders, calls, self0.
  - apply (run_keys_lower calls self0 self Hrun).
    assert (Hempty : keys_lower (Headers.mk [])) by constructor.
    destruct rawHeaders as [items |]; simpl in Hinit.
    + now apply (init_items_keys_lower items (Headers.mk []) self0).
    + apply (f_equal (fun r => match r with
                               | Ok h => h
                               | Raise _ => Headers.mk []
                               end)) in Hinit.
      now subst self0.
Qed.

(** ... and at least one value per key when no empty sequence was given. *)
Lemma history_values (rawHeaders : option (list (pystr * list pystr)))
      (calls : list call) (self0 self : Headers.t) :
  import_gives_values rawHeaders = true ->
  forallb gives_values calls = true ->
  Headers.__init__ rawHeaders = Ok self0 ->
  run self0 calls = Ok self ->
  nonempty_values self.
Proof.
  intros Himp Hcalls Hinit Hrun.
  apply (run_nonempty_values calls self0 self Hcalls Hrun).
  assert (Hempty : nonempty_values (Headers.mk [])) by (intros k vs; discriminate).
  destruct rawHeaders as [items |]; simpl in *.
  - now apply (init_items_nonempty_values items (Headers.mk []) self0).
  - apply (f_equal (fun r => match r with
                             | Ok h => h
                             | Raise _ => Headers.mk []
                             end)) in Hinit.
    now subst self0.
Qed.

(** X1.  In every store that the constructor and the mutators produce, the
    dictionary has one entry per key and every key is in lower case: no
    two entries differ by the case of ASCII letters only. *)
Theorem store_keys_normalized
        (rawHeaders : option (list (pystr * list pystr)))
        (calls : list call) (self0 self : Headers.t) :
  Headers.__init__ rawHeaders = Ok self0 ->
  run self0 calls = Ok self ->
  NoDup (dict_keys (Headers._rawHeaders self))
  /\ Forall (fun k => bytes_lower k = k) (dict_keys (Headers._rawHeaders self))
  /\ NoDup (map bytes_lower (dict_keys (Headers._rawHeaders self))).
Proof.
  intros Hinit Hrun.
  destruct (history_keys rawHeaders calls self0 self Hinit Hrun) as [Hu Hl].
  split; [exact Hu |]. split; [exact Hl |].
  unfold keys_unique, keys_lower in *.
  replace (map bytes_lower (dict_keys (Headers._rawHeaders self)))
    with (dict_keys (Headers._rawHeaders self)); [exact Hu |].
  clear Hu. induction Hl as [| k ks Hk _ IH]; [reflexivity |].
  simpl. now rewrite Hk, <- IH.
Qed.

Lemma store_keys_normalized_witness :
  Headers.__init__ (Some [(Bytes "Accept", [Bytes "*/*"])])
  = Ok (Headers.mk [("accept", ["*/*"])])
  /\ run (Headers.mk [("accept", ["*/*"])])
       [AddRawHeader (Text (text_of "ACCEPT")) (Bytes "text/html");
        SetRawHeaders (Bytes "Host") (PyList [Text (text_of "example.org")])]
     = Ok (Headers.mk [("accept", ["*/*"; "text/html"]);
                       ("host", ["example.org"])])
  /\ NoDup ["accept"; "host"]
  /\ Forall (fun k => bytes_lower k = k) ["accept"; "host"]
  /\ NoDup (map bytes_lower ["accept"; "host"]).
Proof.
  do 2 (split; [reflexivity |]).
  apply (store_keys_normalized
           (Some [(Bytes "Accept", [Bytes "*/*"])])
           [AddRawHeader (Text (text_of "ACCEPT")) (Bytes "text/html");
            SetRawHeaders (Bytes "Host") (PyList [Text (text_of "example.org")])]
           (Headers.mk [("accept", ["*/*"])])
           (Headers.mk [("accept", ["*/*"; "text/html"]);
                        ("host", ["example.org"])]));
    reflexivity.
Defined.

(* ================================================================== *)
(** * Removing a header *)
(* ================================================================== *)

Lemma dict_pop_absent {V : Type} (k : bytes) (d : dict V) :
  dict_get k d = None -> dict_pop k d = d.
Proof.
  induction d as [| [k0 v0] d IH]; simpl; [reflexivity |].
  destruct (String.eqb k k0); [discriminate |].
  intros Hg. now rewrite IH.
Qed.

Lemma removeHeader_key (self : Headers.t) (name : pystr) (k : bytes) :
  storage_key name = Ok k ->
  Headers.removeHeader self name
  = Ok (Headers.mk (dict_pop k (Headers._rawHeaders self))).
Proof. unfold storage_key, Headers.removeHeader. now intros ->. Qed.

(** X2.  For a name that encodes, [removeHeader] returns a store in which
    the header is absent, whatever its capitalization in the call, and in
    which every other key has the sequence it had. *)
Theorem removeHeader_removes (self : Headers.t) (name : pystr) (k : bytes) :
  storage_key name = Ok k ->
  exists self',
    Headers.removeHeader self name = Ok self'
    /\ Headers.hasHeader self' name = Ok false
    /\ stored self' k = None
    /\ forall k', k' <> k -> stored self' k' = stored self k'.
Proof.
  intros Hk. rewrite (removeHeader_key self name k Hk).
  eexists. split; [reflexivity |].
  rewrite (hasHeader_key _ name k Hk). unfold stored.
  cbn [Headers._rawHeaders]. rewrite dict_get_pop, String.eqb_refl.
  repeat split. intros k' Hne. rewrite dict_get_pop.
  apply String.eqb_neq in Hne. now rewrite Hne.
Qed.

Lemma removeHeader_removes_witness :
  storage_key (Text (text_of "Content-TYPE")) = Ok "content-type"
  /\ exists self',
       Headers.removeHeader
         (Headers.mk [("content-type", ["text/html"]); ("host", ["a"])])
         (Text (text_of "Content-TYPE")) = Ok self'
       /\ Headers.hasHeader self' (Text (text_of "Content-TYPE")) = Ok false
       /\ stored self' "content-type" = None
       /\ forall k', k' <> "content-type" ->
            stored self' k'
            = stored (Headers.mk [("content-type", ["text/html"]);
                                  ("host", ["a"])]) k'.
Proof.
  split; [reflexivity |].
  apply (removeHeader_removes
           (Headers.mk [("content-type", ["text/html"]); ("host", ["a"])])
           (Text (text_of "Content-TYPE")) "content-type").
  reflexivity.
Defined.

(** X3.  Removing a header that is absent is not an error and returns the
    store as it was. *)
Theorem removeHeader_absent (self : Headers.t) (name : pystr) :
  Headers.hasHeader self name = Ok false ->
  Headers.removeHeader self name = Ok self.
Proof.
  unfold Headers.hasHeader, Headers.removeHeader, dict_contains.
  destruct (Headers._encodeName (lower name)) as [k |]; [| discriminate].
  cbn [bind].
  destruct (dict_get k (Headers._rawHeaders self)) eqn:Hg; [discriminate |].
  intros _. rewrite (dict_pop_absent k _ Hg). now destruct self.
Qed.

Lemma removeHeader_absent_witness :
  Headers.hasHeader (Headers.mk [("host", ["a"])]) (Bytes "Accept") = Ok false
  /\ Headers.removeHeader (Headers.mk [("host", ["a"])]) (Bytes "Accept")
     = Ok (Headers.mk [("host", ["a"])]).
Proof.
  split; [reflexivity |].
  apply (removeHeader_absent (Headers.mk [("host", ["a"])]) (Bytes "Accept")).
  reflexivity.
Defined.

(* ================================================================== *)
(** * Writing and deleting through the view *)
(* ================================================================== *)

Lemma getitem_key (self : Headers.t) (key : pystr) (k : bytes) :
  storage_key key = Ok k ->
  stored self k = None ->
  _DictHeaders.__getitem__ self key = Raise KeyError.
Proof.
  intros Hk Hs. unfold _DictHeaders.__getitem__.
  rewrite (hasHeader_key self key k Hk), Hs. reflexivity.
Qed.

(** X4.  Deleting a key through the view raises the missing-key error
    when the header is absent.  When it is present the deletion returns a
    store without it: reading the key and deleting it again both raise the
    missing-key error there. *)
Theorem delitem_present_or_KeyError
        (self : Headers.t) (key : pystr) (k : bytes) :
  storage_key key = Ok k ->
  match stored self k with
  | None => _DictHeaders.__delitem__ self key = Raise KeyError
  | Some _ =>
      exists self',
        _DictHeaders.__delitem__ self key = Ok self'
        /\ Headers.hasHeader self' key = Ok false
        /\ _DictHeaders.__getitem__ self' key = Raise KeyError
        /\ _DictHeaders.__delitem__ self' key = Raise KeyError
  end.
Proof.
  intros Hk.
  assert (Hdel : _DictHeaders.__delitem__ self key
                 = match stored self k with
                   | None => Raise KeyError
                   | Some _ =>
                       Ok (Headers.mk (dict_pop k (Headers._rawHeaders self)))
                   end).
  { unfold _DictHeaders.__delitem__.
    rewrite (hasHeader_key self key k Hk), (removeHeader_key self key k Hk).
    now destruct (stored self k). }
  rewrite Hdel. destruct (stored self k) as [l |]; [| reflexivity].
  eexists. split; [reflexivity |].
  assert (Hs : stored (Headers.mk (dict_pop k (Headers._rawHeaders self))) k
               = None).
  { unfold stored. cbn [Headers._rawHeaders].
    now rewrite dict_get_pop, String.eqb_refl. }
  split; [| split].
  - now rewrite (hasHeader_key _ key k Hk), Hs.
  - now apply (getitem_key _ key k).
  - unfold _DictHeaders.__delitem__.
    now rewrite (hasHeader_key _ key k Hk), Hs.
Qed.

Lemma delitem_present_or_KeyError_witness :
  (storage_key (Bytes "Host") = Ok "host"
   /\ _DictHeaders.__delitem__ (Headers.mk [("accept", ["*/*"])]) (Bytes "Host")
      = Raise KeyError)
  /\ (storage_key (Bytes "Host") = Ok "host"
      /\ exists self',
           _DictHeaders.__delitem__
             (Headers.mk [("host", ["a"; "b"]); ("accept", ["*/*"])])
             (Bytes "Host") = Ok self'
           /\ Headers.hasHeader self' (Bytes "Host") = Ok false
           /\ _DictHeaders.__getitem__ self' (Bytes "Host") = Raise KeyError
           /\ _DictHeaders.__delitem__ self' (Bytes "Host") = Raise KeyError).
Proof.
  split; (split; [reflexivity |]).
  - apply (delitem_present_or_KeyError
             (Headers.mk [("accept", ["*/*"])]) (Bytes "Host") "host").
    reflexivity.
  - apply (delitem_present_or_KeyError
             (Headers.mk [("host", ["a"; "b"]); ("accept", ["*/*"])])
             (Bytes "Host") "host").
    reflexivity.
Defined.

(** X5.  A value written through the view replaces the whole sequence of
    the key: the header then holds that one value, and reading the key
    through the view gives it back in the kind of the key. *)
Theorem setitem_then_getitem
        (self self' : Headers.t) (key value : pystr) (default : object) :
  _DictHeaders.__setitem__ self key value = Ok self' ->
  Headers.getRawHeaders self' key default
  = match key with
    | Bytes _ => b <- as_bytes value ;; Ok (PyList [Bytes b])
    | Text _ => t <- as_text value ;; Ok (PyList [Text t])
    end
  /\ _DictHeaders.__getitem__ self' key
     = match key with
       | Bytes _ => b <- as_bytes value ;; Ok (PyStr (Bytes b))
       | Text _ => t <- as_text value ;; Ok (PyStr (Text t))
       end.
Proof.
  unfold _DictHeaders.__setitem__. intros Hset.
  pose proof (get_after_set self self' key [value] default Hset) as Hget.
  pose proof (get_after_set self self' key [value] PyNone Hset) as Hnone.
  apply setRawHeaders_inv in Hset.
  destruct Hset as (l & k & vs & _ & Hk & _ & ->).
  split.
  - rewrite Hget. destruct key; cbn [read_back mapM bind].
    + now destruct (as_bytes value).
    + now destruct (as_text value).
  - unfold _DictHeaders.__getitem__.
    rewrite (hasHeader_key _ key k Hk). unfold stored.
    cbn [Headers._rawHeaders]. rewrite dict_get_set, String.eqb_refl.
    cbn [bind]. rewrite Hnone. destruct key; cbn [read_back mapM bind].
    + now destruct (as_bytes value).
    + now destruct (as_text value).
Qed.

Lemma setitem_then_getitem_witness :
  _DictHeaders.__setitem__
    (Headers.mk [("cookie", ["a=1"; "b=2"])]) (Text (text_of "Cookie"))
    (Bytes "c=3")
  = Ok (Headers.mk [("cookie", ["c=3"])])
  /\ Headers.getRawHeaders (Headers.mk [("cookie", ["c=3"])])
       (Text (text_of "Cookie")) PyNone
     = Ok (PyList [Text (text_of "c=3")])
  /\ _DictHeaders.__getitem__ (Headers.mk [("cookie", ["c=3"])])
       (Text (text_of "Cookie"))
     = Ok (PyStr (Text (text_of "c=3"))).
Proof.
  split; [reflexivity |].
  exact (setitem_then_getitem
           (Headers.mk [("cookie", ["a=1"; "b=2"])])
           (Headers.mk [("cookie", ["c=3"])])
           (Text (text_of "Cookie")) (Bytes "c=3") PyNone eq_refl).
Defined.

(* ================================================================== *)
(** * Counting and listing the headers *)
(* ================================================================== *)

Lemma dict_set_length {V : Type} (k : bytes) (v : V) (d : dict V) :
  List.length (dict_set k v d)
  = if dict_contains k d then List.length d else S (List.length d).
Proof.
  unfold dict_contains. induction d as [| [k0 v0] d IH]; simpl; [reflexivity |].
  destruct (String.eqb k k0); simpl; [reflexivity |].
  rewrite IH. now destruct (dict_get k d).
Qed.

(** X6.  The length of the view counts the headers, not their values: a
    value added to a header that is present leaves it as it is, a value
    added under a new name adds one. *)
Theorem len_after_addRawHeader
        (self : Headers.t) (name value : pystr) (e v : bytes) :
  Headers._encodeName name = Ok e ->
  Headers._encodeValue value = Ok v ->
  exists self',
    Headers.addRawHeader self name value = Ok self'
    /\ _DictHeaders.__len__ self'
       = if dict_contains (bytes_lower e) (Headers._rawHeaders self)
         then _DictHeaders.__len__ self
         else S (_DictHeaders.__len__ self).
Proof.
  intros He Hv. rewrite (addRawHeader_Ok self name value e v He Hv).
  eexists. split; [reflexivity |].
  unfold _DictHeaders.__len__. cbn [Headers._rawHeaders].
  apply dict_set_length.
Qed.

Lemma len_after_addRawHeader_witness :
  Headers._encodeName (Bytes "Set-Cookie") = Ok "Set-Cookie"
  /\ Headers._encodeValue (Bytes "b=2") = Ok "b=2"
  /\ exists self',
       Headers.addRawHeader
         (Headers.mk [("set-cookie", ["a=1"]); ("host", ["h"])])
         (Bytes "Set-Cookie") (Bytes "b=2") = Ok self'
       /\ _DictHeaders.__len__ self' = 2.
Proof.
  do 2 (split; [reflexivity |]).
  apply (len_after_addRawHeader
           (Headers.mk [("set-cookie", ["a=1"]); ("host", ["h"])])
           (Bytes "Set-Cookie") (Bytes "b=2") "Set-Cookie" "b=2");
    reflexivity.
Defined.

Lemma iter_lowered_keys (self : Headers.t) :
  _DictHeaders.__iter__ self
  = Ok (map (fun k => Bytes (bytes_lower k))
            (dict_keys (Headers._rawHeaders self))).
Proof.
  unfold _DictHeaders.__iter__. rewrite getAllRawHeaders_canonical.
  cbn [bind]. f_equal. unfold dict_items, dict_keys.
  rewrite !map_map. apply map_ext. intros [k vs]. cbn [fst snd lower].
  now rewrite canonical_spelling_lower.
Qed.

Lemma keys_lower_map (self : Headers.t) :
  keys_lower self ->
  map (fun k => Bytes (bytes_lower k)) (dict_keys (Headers._rawHeaders self))
  = map Bytes (dict_keys (Headers._rawHeaders self)).
Proof.
  unfold keys_lower. intros Hl. apply map_ext_in. intros k Hk.
  rewrite Forall_forall in Hl. now rewrite (Hl k Hk).
Qed.

(** X7.  In a store that the constructor and the mutators produce,
    iterating the view gives the stored keys, each once and in the order
    of the dictionary: as many names as the length of the view. *)
Theorem iter_yields_keys
        (rawHeaders : option (list (pystr * list pystr)))
        (calls : list call) (self0 self : Headers.t) :
  Headers.__init__ rawHeaders = Ok self0 ->
  run self0 calls = Ok self ->
  exists names,
    _DictHeaders.__iter__ self = Ok names
    /\ names = map Bytes (dict_keys (Headers._rawHeaders self))
    /\ NoDup names
    /\ List.length names = _DictHeaders.__len__ self.
Proof.
  intros Hinit Hrun.
  destruct (history_keys rawHeaders calls self0 self Hinit Hrun) as [Hu Hl].
  rewrite iter_lowered_keys, (keys_lower_map self Hl).
  eexists. split; [reflexivity |]. split; [reflexivity |]. split.
  - apply Finite.Injective_map_NoDup; [| exact Hu].
    intros x y Hxy. apply (f_equal (fun s => match s with
                                             | Bytes b => b
                                             | Text _ => x
                                             end)) in Hxy.
    exact Hxy.
  - unfold _DictHeaders.__len__, dict_keys. now rewrite !length_map.
Qed.

Lemma iter_yields_keys_witness :
  Headers.__init__ None = Ok (Headers.mk [])
  /\ run (Headers.mk [])
       [AddRawHeader (Bytes "X-A") (Bytes "1");
        AddRawHeader (Bytes "ETag") (Bytes "t");
        AddRawHeader (Bytes "x-a") (Bytes "2")]
     = Ok (Headers.mk [("x-a", ["1"; "2"]); ("etag", ["t"])])
  /\ exists names,
       _DictHeaders.__iter__ (Headers.mk [("x-a", ["1"; "2"]); ("etag", ["t"])])
       = Ok names
       /\ names = [Bytes "x-a"; Bytes "etag"]
       /\ NoDup names
       /\ List.length names = 2.
Proof.
  do 2 (split; [reflexivity |]).
  apply (iter_yields_keys None
           [AddRawHeader (Bytes "X-A") (Bytes "1");
            AddRawHeader (Bytes "ETag") (Bytes "t");
            AddRawHeader (Bytes "x-a") (Bytes "2")]
           (Headers.mk [])
           (Headers.mk [("x-a", ["1"; "2"]); ("etag", ["t"])]));
    reflexivity.
Defined.

(* ================================================================== *)
(** * Copying a store *)
(* ================================================================== *)

Lemma dict_set_absent_app {V : Type} (k : bytes) (v : V) (d : dict V) :
  ~ In k (dict_keys d) -> dict_set k v d = d ++ [(k, v)].
Proof.
  unfold dict_keys. induction d as [| [k0 v0] d IH]; simpl; [reflexivity |].
  intros Hn. destruct (String.eqb_spec k k0) as [-> | _].
  - elim Hn. now left.
  - rewrite IH; [reflexivity |]. intros Hin. apply Hn. now right.
Qed.

(** Importing the items of a dictionary with normalized keys appends them
    as they are. *)
Lemma init_items_append (items : dict (list bytes)) :
  forall acc : dict (list bytes),
    NoDup (dict_keys acc ++ dict_keys items) ->
    Forall (fun k => bytes_lower k = k) (dict_keys items) ->
    Headers.init_items (Headers.mk acc)
      (map (fun kv => (Bytes (fst kv), map Bytes (snd kv))) items)
    = Ok (Headers.mk (acc ++ items)).
Proof.
  unfold dict_keys.
  induction items as [| [k vs] items IH]; intros acc Hu Hl.
  - simpl. now rewrite app_nil_r.
  - cbn [map fst snd Headers.init_items Headers._encodeName bind].
    rewrite encodeValues_bytes. cbn [bind].
    simpl in Hl. apply Forall_cons_iff in Hl. destruct Hl as [Hk Hl].
    rewrite (setRawHeaders_Ok (Headers.mk acc) (Bytes k) (map Bytes vs)
               k vs); [| unfold storage_key; simpl; now rewrite Hk
                       | apply encodeValues_bytes].
    cbn [bind Headers._rawHeaders].
    simpl in Hu. pose proof (NoDup_remove_2 _ _ _ Hu) as Hn.
    rewrite dict_set_absent_app.
    + rewrite IH; [now rewrite <- app_assoc | | exact Hl].
      rewrite map_app. simpl. rewrite <- app_assoc. simpl.
      apply NoDup_remove_1 in Hu.
      apply Permutation_NoDup with (l := k :: map fst acc ++ map fst items).
      * apply Permutation_middle.
      * constructor; assumption.
    + intros Hin. apply Hn. apply in_or_app. now left.
Qed.

(** X8.  [copy()] of a store that the constructor and the mutators
    produce returns a store with the same entries in the same order, which
    compares equal to the original. *)
Theorem copy_same_entries
        (rawHeaders : option (list (pystr * list pystr)))
        (calls : list call) (self0 self : Headers.t) :
  Headers.__init__ rawHeaders = Ok self0 ->
  run self0 calls = Ok self ->
  Headers.copy self = Ok self /\ Headers.__eq__ self self = true.
Proof.
  intros Hinit Hrun.
  destruct (history_keys rawHeaders calls self0 self Hinit Hrun) as [Hu Hl].
  split.
  - unfold Headers.copy, Headers.__init__, dict_items.
    rewrite (init_items_append (Headers._rawHeaders self) []);
      [now destruct self | exact Hu | exact Hl].
  - apply eq_iff_perm. apply Permutation_refl.
Qed.

Lemma copy_same_entries_witness :
  Headers.__init__ (Some [(Bytes "B", [Bytes "2"]); (Bytes "A", [Bytes "1"])])
  = Ok (Headers.mk [("b", ["2"]); ("a", ["1"])])
  /\ run (Headers.mk [("b", ["2"]); ("a", ["1"])])
       [AddRawHeader (Bytes "b") (Bytes "3")]
     = Ok (Headers.mk [("b", ["2"; "3"]); ("a", ["1"])])
  /\ Headers.copy (Headers.mk [("b", ["2"; "3"]); ("a", ["1"])])
     = Ok (Headers.mk [("b", ["2"; "3"]); ("a", ["1"])])
  /\ Headers.__eq__ (Headers.mk [("b", ["2"; "3"]); ("a", ["1"])])
       (Headers.mk [("b", ["2"; "3"]); ("a", ["1"])]) = true.
Proof.
  do 2 (split; [reflexivity |]).
  apply (copy_same_entries
           (Some [(Bytes "B", [Bytes "2"]); (Bytes "A", [Bytes "1"])])
           [AddRawHeader (Bytes "b") (Bytes "3")]
           (Headers.mk [("b", ["2"]); ("a", ["1"])]));
    reflexivity.
Defined.

(* ================================================================== *)
(** * Encoding and decoding *)
(* ================================================================== *)

(** X9.  Text values that [_encodeValues] encodes are given back by
    [_decodeValues]: the stored form of a list of text values decodes to
    that list. *)
Theorem encodeValues_decodeValues (values : list unicode) (bs : list bytes) :
  Headers._encodeValues (map Text values) = Ok bs ->
  Headers._decodeValues (PyList (map Bytes bs)) = Ok (PyList (map Text values)).
Proof.
  intros He. rewrite decodeValues_stored.
  rewrite (decode_encoded_values (map Text values) bs He).
  rewrite mapM_map. cbn [as_text]. now rewrite mapM_Ok.
Qed.

Lemma encodeValues_decodeValues_witness :
  Headers._encodeValues (map Text [[233%N]; text_of "a"])
  = Ok [bytes_of [195; 169]%N; "a"]
  /\ Headers._decodeValues (PyList (map Bytes [bytes_of [195; 169]%N; "a"]))
     = Ok (PyList (map Text [[233%N]; text_of "a"])).
Proof.
  split; [reflexivity |].
  apply (encodeValues_decodeValues [[233%N]; text_of "a"]
           [bytes_of [195; 169]%N; "a"]).
  reflexivity.
Defined.

(** X10.  A text name that [_encodeName] encodes is given back by
    [_decodeName], and the decoded name encodes to the same bytes: on the
    names it accepts, the name encoding has an inverse. *)
Theorem encodeName_decodeName (name : unicode) (b : bytes) :
  Headers._encodeName (Text name) = Ok b ->
  Headers._decodeName b = name
  /\ Headers._encodeName (Text (Headers._decodeName b)) = Ok b.
Proof.
  simpl. intros He. split.
  - now apply latin1_decode_encode.
  - apply latin1_encode_decode.
Qed.

Lemma encodeName_decodeName_witness :
  Headers._encodeName (Text [67; 233]%N) = Ok (bytes_of [67; 233]%N)
  /\ Headers._decodeName (bytes_of [67; 233]%N) = [67; 233]%N
  /\ Headers._encodeName (Text (Headers._decodeName (bytes_of [67; 233]%N)))
     = Ok (bytes_of [67; 233]%N).
Proof.
  split; [reflexivity |].
  apply (encodeName_decodeName [67; 233]%N (bytes_of [67; 233]%N)).
  reflexivity.
Defined.

(* ================================================================== *)
(** * Byte names and byte values *)
(* ================================================================== *)

(** X11.  With byte names and byte values nothing is encoded or decoded
    and no call raises: the values set are read back as they are, a value
    added comes last, and after the removal the read gives the default;
    the name may change its capitalization from one call to the next. *)
Theorem bytes_pass_through
        (self : Headers.t) (name : bytes) (values : list bytes)
        (value : bytes) (default : object) :
  exists s1 s2 s3,
    Headers.setRawHeaders self (Bytes name) (PyList (map Bytes values)) = Ok s1
    /\ Headers.getRawHeaders s1 (Bytes (bytes_upper name)) default
       = Ok (PyList (map Bytes values))
    /\ Headers.addRawHeader s1 (Bytes (bytes_upper name)) (Bytes value) = Ok s2
    /\ Headers.getRawHeaders s2 (Bytes name) default
       = Ok (PyList (map Bytes (values ++ [value])))
    /\ Headers.hasHeader s2 (Bytes (bytes_lower name)) = Ok true
    /\ Headers.removeHeader s2 (Bytes (bytes_upper name)) = Ok s3
    /\ Headers.hasHeader s3 (Bytes name) = Ok false
    /\ Headers.getRawHeaders s3 (Bytes name) default = Ok default.
Proof.
  pose (k := bytes_lower name).
  assert (Hup : bytes_lower (bytes_upper name) = k) by apply bytes_lower_upper.
  assert (Hlow : bytes_lower (bytes_lower name) = k) by apply bytes_lower_idem.
  exists (Headers.mk (dict_set k values (Headers._rawHeaders self))).
  exists (Headers.mk (dict_set k (values ++ [value])
                        (Headers._rawHeaders self))).
  exists (Headers.mk (dict_pop k (dict_set k (values ++ [value])
                                    (Headers._rawHeaders self)))).
  split.
  { apply setRawHeaders_Ok; [reflexivity | apply encodeValues_bytes]. }
  split.
  { rewrite getRawHeaders_bytes, Hup. unfold stored.
    cbn [Headers._rawHeaders]. now rewrite dict_get_set, String.eqb_refl. }
  split.
  { rewrite (addRawHeader_Ok _ (Bytes (bytes_upper name)) (Bytes value)
               (bytes_upper name) value eq_refl eq_refl).
    rewrite Hup. unfold stored. cbn [Headers._rawHeaders].
    now rewrite dict_get_set, String.eqb_refl, dict_set_set. }
  split.
  { rewrite getRawHeaders_bytes. unfold stored.
    cbn [Headers._rawHeaders]. now rewrite dict_get_set, String.eqb_refl. }
  split.
  { unfold Headers.hasHeader. cbn [lower Headers._encodeName bind].
    rewrite Hlow. unfold dict_contains. cbn [Headers._rawHeaders].
    now rewrite dict_get_set, String.eqb_refl. }
  split.
  { unfold Headers.removeHeader. cbn [lower Headers._encodeName bind].
    now rewrite Hup. }
  split.
  { unfold Headers.hasHeader. cbn [lower Headers._encodeName bind].
    unfold dict_contains. cbn [Headers._rawHeaders].
    now rewrite dict_get_pop, String.eqb_refl. }
  rewrite getRawHeaders_bytes. unfold stored.
  cbn [Headers._rawHeaders]. now rewrite dict_get_pop, String.eqb_refl.
Qed.

(* ================================================================== *)
(** * One header at a time *)
(* ================================================================== *)

(** X12.  [setRawHeaders] replaces: after a write under one
    capitalization of a name, a write under another gives the store that
    this second write alone gives. *)
Theorem setRawHeaders_replaces
        (self s1 : Headers.t) (n1 n2 : pystr) (v1 : list pystr) (v2 : object) :
  case_variant n1 n2 = true ->
  Headers.setRawHeaders self n1 (PyList v1) = Ok s1 ->
  Headers.setRawHeaders s1 n2 v2 = Headers.setRawHeaders self n2 v2.
Proof.
  intros Hv Hset. apply setRawHeaders_inv in Hset.
  destruct Hset as (l & k & vs & _ & Hk & _ & ->).
  unfold storage_key in Hk. rewrite (case_variant_lower n1 n2 Hv) in Hk.
  unfold Headers.setRawHeaders. destruct v2 as [| | | | l2]; try reflexivity.
  rewrite Hk. cbn [bind Headers._rawHeaders].
  destruct (Headers._encodeValues l2) as [vs2 |]; [| reflexivity].
  cbn [bind]. now rewrite dict_set_set.
Qed.

Lemma setRawHeaders_replaces_witness :
  case_variant (Bytes "Accept") (Bytes "ACCEPT") = true
  /\ Headers.setRawHeaders (Headers.mk [("host", ["h"])]) (Bytes "Accept")
       (PyList [Bytes "a"; Bytes "b"])
     = Ok (Headers.mk [("host", ["h"]); ("accept", ["a"; "b"])])
  /\ Headers.setRawHeaders
       (Headers.mk [("host", ["h"]); ("accept", ["a"; "b"])])
       (Bytes "ACCEPT") (PyList [Bytes "c"])
     = Headers.setRawHeaders (Headers.mk [("host", ["h"])]) (Bytes "ACCEPT")
         (PyList [Bytes "c"]).
Proof.
  do 2 (split; [reflexivity |]).
  apply (setRawHeaders_replaces (Headers.mk [("host", ["h"])])
           (Headers.mk [("host", ["h"]); ("accept", ["a"; "b"])])
           (Bytes "Accept") (Bytes "ACCEPT") [Bytes "a"; Bytes "b"]
           (PyList [Bytes "c"]));
    reflexivity.
Defined.

(** X13.  A call of [setRawHeaders], [addRawHeader] or [removeHeader] that
    returns has changed the sequence of one key at most: every other key
    has the sequence it had. *)
Theorem mutators_touch_one_key (self self' : Headers.t) (c : call) :
  perform self c = Ok self' ->
  exists k, forall k', k' <> k -> stored self' k' = stored self k'.
Proof.
  destruct c as [name values | name value | name]; cbn [perform];
    intros Hp.
  - apply setRawHeaders_inv in Hp.
    destruct Hp as (l & k & vs & _ & _ & _ & ->).
    exists k. intros k' Hne. unfold stored. cbn [Headers._rawHeaders].
    rewrite dict_get_set. apply String.eqb_neq in Hne. now rewrite Hne.
  - destruct (addRawHeader_inv _ _ _ _ Hp) as (e & v & He & Hv).
    rewrite (addRawHeader_Ok self name value e v He Hv) in Hp.
    apply (f_equal (fun r => match r with Ok h => h | Raise _ => self end))
      in Hp.
    subst self'. exists (bytes_lower e). intros k' Hne. unfold stored.
    cbn [Headers._rawHeaders].
    rewrite dict_get_set. apply String.eqb_neq in Hne. now rewrite Hne.
  - unfold Headers.removeHeader in Hp.
    destruct (Headers._encodeName (lower name)) as [k |]; [| discriminate].
    cbn [bind] in Hp.
    apply (f_equal (fun r => match r with Ok h => h | Raise _ => self end))
      in Hp.
    subst self'. exists k. intros k' Hne. unfold stored.
    cbn [Headers._rawHeaders].
    rewrite dict_get_pop. apply String.eqb_neq in Hne. now rewrite Hne.
Qed.

Lemma mutators_touch_one_key_witness :
  perform (Headers.mk [("host", ["h"]); ("accept", ["a"])])
    (AddRawHeader (Bytes "Accept") (Bytes "b"))
  = Ok (Headers.mk [("host", ["h"]); ("accept", ["a"; "b"])])
  /\ exists k, forall k', k' <> k ->
       stored (Headers.mk [("host", ["h"]); ("accept", ["a"; "b"])]) k'
       = stored (Headers.mk [("host", ["h"]); ("accept", ["a"])]) k'.
Proof.
  split; [reflexivity |].
  apply (mutators_touch_one_key
           (Headers.mk [("host", ["h"]); ("accept", ["a"])])
           (Headers.mk [("host", ["h"]); ("accept", ["a"; "b"])])
           (AddRawHeader (Bytes "Accept") (Bytes "b"))).
  reflexivity.
Defined.

(* ================================================================== *)
(** * The three-way comparison *)
(* ================================================================== *)

Lemma items_ltb_asym (a b : list item) :
  list_ltb item_eqb item_ltb a b = true ->
  list_ltb item_eqb item_ltb b a = false.
Proof.
  intros Hab. destruct (list_ltb item_eqb item_ltb b a) eqn:Hba;
    [| reflexivity].
  pose proof (list_ltb_trans _ _ _ item_eqb_eq item_ltb_irrefl item_ltb_trans
                a b a Hab Hba) as Haa.
  now rewrite (list_ltb_irrefl _ _ _ item_eqb_eq) in Haa.
Qed.

Lemma items_eqb_sym (a b : list item) :
  list_eqb item_eqb a b = list_eqb item_eqb b a.
Proof.
  destruct (list_eqb item_eqb a b) eqn:Hab.
  - apply (list_eqb_eq _ _ item_eqb_eq) in Hab. subst b. symmetry.
    now apply (list_eqb_eq _ _ item_eqb_eq).
  - destruct (list_eqb item_eqb b a) eqn:Hba; [| reflexivity].
    apply (list_eqb_eq _ _ item_eqb_eq) in Hba. subst b.
    assert (He : list_eqb item_eqb a a = true)
      by now apply (list_eqb_eq _ _ item_eqb_eq).
    congruence.
Qed.

Lemma cmp_antisym (a b : list item) : cmp a b = (- cmp b a)%Z.
Proof.
  unfold cmp.
  destruct (list_ltb item_eqb item_ltb a b) eqn:Hab.
  - rewrite (items_ltb_asym a b Hab).
    destruct (list_eqb item_eqb b a) eqn:He; [| reflexivity].
    apply (list_eqb_eq _ _ item_eqb_eq) in He. subst b.
    now rewrite (list_ltb_irrefl _ _ _ item_eqb_eq) in Hab.
  - rewrite (items_eqb_sym b a).
    destruct (list_eqb item_eqb a b) eqn:He.
    + apply (list_eqb_eq _ _ item_eqb_eq) in He. subst b. now rewrite Hab.
    + destruct (list_ltb item_eqb item_ltb b a) eqn:Hba; [reflexivity |].
      pose proof (list_ltb_total _ _ _ item_eqb_eq item_ltb_total
                    a b Hab Hba) as Heq.
      subst b.
      assert (He' : list_eqb item_eqb a a = true)
        by now apply (list_eqb_eq _ _ item_eqb_eq).
      congruence.
Qed.

(** X14.  [__cmp__] is a consistent three-way comparison: its result is
    -1, 0 or 1, exchanging the two stores changes its sign, and it does
    not depend on the order of the entries in either dictionary. *)
Theorem cmp_consistent (h1 h2 h1' h2' : Headers.t) :
  Permutation (Headers._rawHeaders h1) (Headers._rawHeaders h1') ->
  Permutation (Headers._rawHeaders h2) (Headers._rawHeaders h2') ->
  Headers.__cmp__ h1 h2 = (- Headers.__cmp__ h2 h1)%Z
  /\ Headers.__cmp__ h1 h2 = Headers.__cmp__ h1' h2'
  /\ (Headers.__cmp__ h1 h2 = (-1)%Z \/ Headers.__cmp__ h1 h2 = 0%Z
      \/ Headers.__cmp__ h1 h2 = 1%Z).
Proof.
  intros Hp1 Hp2. unfold Headers.__cmp__, dict_items.
  split; [apply cmp_antisym |]. split.
  - apply sorted_eq_iff_perm in Hp1, Hp2. now rewrite Hp1, Hp2.
  - unfold cmp.
    destruct (list_ltb item_eqb item_ltb _ _); [now left |].
    destruct (list_eqb item_eqb _ _); [right; now left | right; now right].
Qed.

Lemma cmp_consistent_witness :
  Permutation [("a", ["1"]); ("b", ["2"])] [("b", ["2"]); ("a", ["1"])]
  /\ Permutation [("a", ["1"; "0"])] [("a", ["1"; "0"])]
  /\ Headers.__cmp__ (Headers.mk [("a", ["1"]); ("b", ["2"])])
       (Headers.mk [("a", ["1"; "0"])])
     = (- Headers.__cmp__ (Headers.mk [("a", ["1"; "0"])])
            (Headers.mk [("a", ["1"]); ("b", ["2"])]))%Z
  /\ Headers.__cmp__ (Headers.mk [("a", ["1"]); ("b", ["2"])])
       (Headers.mk [("a", ["1"; "0"])])
     = Headers.__cmp__ (Headers.mk [("b", ["2"]); ("a", ["1"])])
         (Headers.mk [("a", ["1"; "0"])]).
Proof.
  split; [apply perm_swap |]. split; [apply Permutation_refl |].
  destruct (cmp_consistent
              (Headers.mk [("a", ["1"]); ("b", ["2"])])
              (Headers.mk [("a", ["1"; "0"])])
              (Headers.mk [("b", ["2"]); ("a", ["1"])])
              (Headers.mk [("a", ["1"; "0"])])
              (perm_swap _ _ _) (Permutation_refl _)) as (Ha & Hb & _).
  split; [exact Ha | exact Hb].
Defined.

(* ================================================================== *)
(** * Membership and export through the view *)
(* ================================================================== *)

Lemma getitem_bytes (self : Headers.t) (key : bytes) :
  _DictHeaders.__getitem__ self (Bytes key)
  = match stored self (bytes_lower key) with
    | None => Raise KeyError
    | Some l =>
        match rev l with
        | last :: _ => Ok (PyStr (Bytes last))
        | [] => Raise IndexError
        end
    end.
Proof.
  unfold _DictHeaders.__getitem__.
  rewrite (hasHeader_key self (Bytes key) (bytes_lower key) eq_refl).
  cbn [bind]. rewrite getRawHeaders_bytes.
  destruct (stored self (bytes_lower key)) as [l |]; [| reflexivity].
  cbn [bind _DictHeaders.last_item]. rewrite rev_map_head.
  now destruct (rev l).
Qed.

(** X15.  [has_key] on a byte key follows [hasHeader], whatever the
    capitalization of the key: false for an absent header, true for a
    header with values.  On a header that is present with an empty
    sequence, where [hasHeader] is true, it raises the index error of the
    read it is made of. *)
Theorem has_key_bytes (self : Headers.t) (key : bytes) :
  _DictHeaders.has_key self (Bytes key)
  = match stored self (bytes_lower key) with
    | None => Ok false
    | Some [] => Raise IndexError
    | Some (_ :: _) => Ok true
    end
  /\ Headers.hasHeader self (Bytes key)
     = match stored self (bytes_lower key) with
       | None => Ok false
       | Some _ => Ok true
       end.
Proof.
  split.
  - unfold _DictHeaders.has_key, Mapping.__contains__.
    rewrite getitem_bytes.
    destruct (stored self (bytes_lower key)) as [[| v l] |]; try reflexivity.
    destruct (rev (v :: l)) eqn:Hr; [| reflexivity].
    apply (f_equal (@List.length bytes)) in Hr.
    rewrite length_rev in Hr. discriminate.
  - rewrite (hasHeader_key self (Bytes key) (bytes_lower key) eq_refl).
    now destruct (stored self (bytes_lower key)).
Qed.

Lemma pydict_set_fresh (k : pystr) (v : object) (d : pydict) :
  (forall kv, In kv d -> pystr_eqb k (fst kv) = false) ->
  pydict_set k v d = d ++ [(k, v)].
Proof.
  induction d as [| [k0 v0] d IH]; simpl; [reflexivity |].
  intros Hf. pose proof (Hf (k0, v0) (or_introl eq_refl)) as Hk.
  cbn [fst] in Hk. rewrite Hk.
  rewrite IH; [reflexivity |]. intros kv Hin. apply Hf. now right.
Qed.

(** A [dict] built from pairs with distinct byte keys has these pairs as
    its items. *)
Lemma pydict_of_distinct (f : item -> object) (items : list item) :
  forall acc : list item,
    NoDup (map fst acc ++ map fst items) ->
    fold_left (fun d kv => pydict_set (fst kv) (snd kv) d)
      (map (fun kv => (Bytes (fst kv), f kv)) items)
      (map (fun kv => (Bytes (fst kv), f kv)) acc)
    = map (fun kv => (Bytes (fst kv), f kv)) (acc ++ items).
Proof.
  induction items as [| [k vs] items IH]; intros acc Hu.
  - simpl. now rewrite app_nil_r.
  - cbn [map fold_left fst snd].
    rewrite pydict_set_fresh.
    + change ([(Bytes k, f (k, vs))])
        with (map (fun kv : item => (Bytes (fst kv), f kv)) [(k, vs)]).
      rewrite <- map_app, IH; [now rewrite <- app_assoc |].
      rewrite map_app. cbn [map fst]. now rewrite <- app_assoc.
    + intros kv Hin. apply in_map_iff in Hin.
      destruct Hin as ([k' vs'] & <- & Hin). cbn [fst pystr_eqb].
      apply String.eqb_neq. intros <-.
      cbn [map fst] in Hu. apply NoDup_remove_2 in Hu. apply Hu.
      apply in_or_app. left. apply in_map_iff. now exists (k, vs').
Qed.

Lemma rev_head_last {A : Type} (l r : list A) (x d : A) :
  rev l = x :: r -> List.last l d = x.
Proof.
  intros Hr. apply (f_equal (@rev A)) in Hr. rewrite rev_involutive in Hr.
  subst l. simpl. apply last_last.
Qed.

Lemma items_of_entries (self : Headers.t) (l : list item) :
  (forall kv, In kv l ->
     stored self (fst kv) = Some (snd kv) /\ snd kv <> []
     /\ bytes_lower (fst kv) = fst kv) ->
  mapM (fun key => value <- _DictHeaders.__getitem__ self key ;; Ok (key, value))
       (map (fun kv => Bytes (fst kv)) l)
  = Ok (map (fun kv => (Bytes (fst kv),
                        PyStr (Bytes (List.last (snd kv) EmptyString)))) l).
Proof.
  induction l as [| [k vs] l IH]; intros Hl; [reflexivity |].
  cbn [map mapM fst snd].
  destruct (Hl (k, vs) (or_introl eq_refl)) as (Hs & Hne & Hk).
  cbn [fst snd] in Hs, Hne, Hk.
  rewrite getitem_bytes, Hk, Hs.
  destruct (rev vs) as [| x r] eqn:Hr.
  - apply (f_equal (@rev bytes)) in Hr. rewrite rev_involutive in Hr.
    now elim Hne.
  - cbn [bind]. rewrite IH by (intros kv Hin; apply Hl; now right).
    cbn [bind]. repeat f_equal. symmetry.
    exact (rev_head_last vs r x EmptyString Hr).
Qed.

(** X16.  In a store that the constructor and the mutators produce and
    that has no empty sequence, [copy()] of the view is the dictionary
    that maps every stored key, as bytes, to the last of its values, in the
    order of the store. *)
Theorem view_copy_last_values
        (rawHeaders : option (list (pystr * list pystr)))
        (calls : list call) (self0 self : Headers.t) :
  Headers.__init__ rawHeaders = Ok self0 ->
  run self0 calls = Ok self ->
  has_values self = true ->
  _DictHeaders.copy self
  = Ok (map (fun kv => (Bytes (fst kv),
                        PyStr (Bytes (List.last (snd kv) EmptyString))))
            (Headers._rawHeaders self)).
Proof.
  intros Hinit Hrun Hv.
  destruct (history_keys rawHeaders calls self0 self Hinit Hrun) as [Hu Hl].
  unfold _DictHeaders.copy, Mapping.items.
  rewrite iter_lowered_keys, (keys_lower_map self Hl). cbn [bind].
  unfold dict_keys. rewrite map_map.
  rewrite (items_of_entries self (Headers._rawHeaders self)).
  - cbn [bind]. unfold pydict_of.
    pose proof (pydict_of_distinct
                  (fun kv => PyStr (Bytes (List.last (snd kv) EmptyString)))
                  (Headers._rawHeaders self) [] Hu) as Hd.
    f_equal. exact Hd.
  - intros [k vs] Hin. cbn [fst snd]. split; [| split].
    + now apply dict_get_iff_in.
    + unfold has_values in Hv. rewrite forallb_forall in Hv.
      specialize (Hv _ Hin). cbn [snd] in Hv. now destruct vs.
    + unfold keys_lower in Hl. rewrite Forall_forall in Hl. apply Hl.
      unfold dict_keys. apply in_map_iff. now exists (k, vs).
Qed.

Lemma view_copy_last_values_witness :
  Headers.__init__ None = Ok (Headers.mk [])
  /\ run (Headers.mk [])
       [AddRawHeader (Bytes "X") (Bytes "a");
        AddRawHeader (Bytes "Host") (Bytes "h");
        AddRawHeader (Bytes "x") (Bytes "b")]
     = Ok (Headers.mk [("x", ["a"; "b"]); ("host", ["h"])])
  /\ has_values (Headers.mk [("x", ["a"; "b"]); ("host", ["h"])]) = true
  /\ _DictHeaders.copy (Headers.mk [("x", ["a"; "b"]); ("host", ["h"])])
     = Ok [(Bytes "x", PyStr (Bytes "b")); (Bytes "host", PyStr (Bytes "h"))].
Proof.
  do 3 (split; [reflexivity |]).
  apply (view_copy_last_values None
           [AddRawHeader (Bytes "X") (Bytes "a");
            AddRawHeader (Bytes "Host") (Bytes "h");
            AddRawHeader (Bytes "x") (Bytes "b")]
           (Headers.mk [])
           (Headers.mk [("x", ["a"; "b"]); ("host", ["h"])]));
    reflexivity.
Defined.

(* ================================================================== *)
(** * The constructor *)
(* ================================================================== *)



(** Importing items whose names lower to distinct keys appends one entry
    per item. *)
Lemma init_items_append_named (f : bytes -> bytes) (items : dict (list bytes)) :
  forall acc : dict (list bytes),
    NoDup (dict_keys acc ++ dict_keys items) ->
    Forall (fun k => bytes_lower (f k) = k) (dict_keys items) ->
    Headers.init_items (Headers.mk acc)
      (map (fun kv => (Bytes (f (fst kv)), map Bytes (snd kv))) items)
    = Ok (Headers.mk (acc ++ items)).
Proof.
  unfold dict_keys.
  induction items as [| [k vs] items IH]; intros acc Hu Hl.
  - simpl. now rewrite app_nil_r.
  - cbn [map fst snd Headers.init_items Headers._encodeName bind].
    rewrite encodeValues_bytes. cbn [bind].
    simpl in Hl. apply Forall_cons_iff in Hl. destruct Hl as [Hk Hl].
    rewrite (setRawHeaders_Ok (Headers.mk acc) (Bytes (f k)) (map Bytes vs)
               k vs); [| unfold storage_key; simpl; now rewrite Hk
                       | apply encodeValues_bytes].
    cbn [bind Headers._rawHeaders].
    simpl in Hu. pose proof (NoDup_remove_2 _ _ _ Hu) as Hn.
    rewrite dict_set_absent_app.
    + rewrite IH; [now rewrite <- app_assoc | | exact Hl].
      rewrite map_app. simpl. rewrite <- app_assoc. simpl.
      apply NoDup_remove_1 in Hu.
      apply Permutation_NoDup with (l := k :: map fst acc ++ map fst items).
      * apply Permutation_middle.
      * constructor; assumption.
    + intros Hin. apply Hn. apply in_or_app. now left.
Qed.

(** X18.  For a store that the constructor and the mutators produce,
    [getAllRawHeaders] returns one pair per header, with the values as
    stored, and a new store built from these pairs is the store itself:
    the display names lead back to the keys. *)
Theorem getAllRawHeaders_rebuilds
        (rawHeaders : option (list (pystr * list pystr)))
        (calls : list call) (self0 self : Headers.t) :
  Headers.__init__ rawHeaders = Ok self0 ->
  run self0 calls = Ok self ->
  exists pairs,
    Headers.getAllRawHeaders self = Ok pairs
    /\ map snd pairs = map snd (Headers._rawHeaders self)
    /\ Headers.__init__
         (Some (map (fun kv => (fst kv, map Bytes (snd kv))) pairs))
       = Ok self.
Proof.
  intros Hinit Hrun.
  destruct (history_keys rawHeaders calls self0 self Hinit Hrun) as [Hu Hl].
  rewrite getAllRawHeaders_canonical. eexists. split; [reflexivity |].
  unfold dict_items. split.
  - rewrite map_map. now apply map_ext.
  - rewrite map_map. cbn [fst snd Headers.__init__].
    rewrite (init_items_append_named canonical_spelling
               (Headers._rawHeaders self) []).
    + now destruct self.
    + exact Hu.
    + unfold keys_lower in Hl. eapply Forall_impl; [| exact Hl].
      intros k Hk. cbn beta in Hk. now rewrite canonical_spelling_lower.
Qed.

Lemma getAllRawHeaders_rebuilds_witness :
  Headers.__init__ None = Ok (Headers.mk [])
  /\ run (Headers.mk [])
       [AddRawHeader (Bytes "etag") (Bytes "t");
        AddRawHeader (Bytes "x-a") (Bytes "1");
        AddRawHeader (Bytes "X-A") (Bytes "2")]
     = Ok (Headers.mk [("etag", ["t"]); ("x-a", ["1"; "2"])])
  /\ exists pairs,
       Headers.getAllRawHeaders
         (Headers.mk [("etag", ["t"]); ("x-a", ["1"; "2"])]) = Ok pairs
       /\ map snd pairs = [["t"]; ["1"; "2"]]
       /\ Headers.__init__
            (Some (map (fun kv => (fst kv, map Bytes (snd kv))) pairs))
          = Ok (Headers.mk [("etag", ["t"]); ("x-a", ["1"; "2"])]).
Proof.
  do 2 (split; [reflexivity |]).
  apply (getAllRawHeaders_rebuilds None
           [AddRawHeader (Bytes "etag") (Bytes "t");
            AddRawHeader (Bytes "x-a") (Bytes "1");
            AddRawHeader (Bytes "X-A") (Bytes "2")]
           (Headers.mk [])
           (Headers.mk [("etag", ["t"]); ("x-a", ["1"; "2"])]));
    reflexivity.
Defined.

(* ================================================================== *)
(** * Names: capitalization and encoding *)
(* ================================================================== *)

(** X19.  Every method that looks a name up treats two capitalization
    variants of it alike: the reads, the write, the removal and the
    accesses through the view give the same result for both. *)
Theorem lookups_case_invariant
        (self : Headers.t) (n1 n2 : pystr) (values default : object) :
  case_variant n1 n2 = true ->
  Headers.getRawHeaders self n1 default = Headers.getRawHeaders self n2 default
  /\ Headers.setRawHeaders self n1 values = Headers.setRawHeaders self n2 values
  /\ Headers.removeHeader self n1 = Headers.removeHeader self n2
  /\ _DictHeaders.__getitem__ self n1 = _DictHeaders.__getitem__ self n2
  /\ _DictHeaders.__delitem__ self n1 = _DictHeaders.__delitem__ self n2.
Proof.
  intros Hv. pose proof (case_variant_lower n1 n2 Hv) as Hl.
  assert (Hget : forall d, Headers.getRawHeaders self n1 d
                           = Headers.getRawHeaders self n2 d)
    by (intros d; unfold Headers.getRawHeaders; now rewrite Hl).
  assert (Hhas : Headers.hasHeader self n1 = Headers.hasHeader self n2)
    by (unfold Headers.hasHeader; now rewrite Hl).
  assert (Hrem : Headers.removeHeader self n1 = Headers.removeHeader self n2)
    by (unfold Headers.removeHeader; now rewrite Hl).
  split; [apply Hget |]. split; [| split; [exact Hrem | split]].
  - unfold Headers.setRawHeaders. now rewrite Hl.
  - unfold _DictHeaders.__getitem__. now rewrite Hhas, Hget.
  - unfold _DictHeaders.__delitem__. now rewrite Hhas, Hrem.
Qed.

Lemma lookups_case_invariant_witness :
  case_variant (Text (text_of "ETag")) (Text (text_of "etag")) = true
  /\ Headers.getRawHeaders (Headers.mk [("etag", ["t"])])
       (Text (text_of "ETag")) PyNone
     = Headers.getRawHeaders (Headers.mk [("etag", ["t"])])
         (Text (text_of "etag")) PyNone
  /\ Headers.setRawHeaders (Headers.mk [("etag", ["t"])])
       (Text (text_of "ETag")) (PyList [])
     = Headers.setRawHeaders (Headers.mk [("etag", ["t"])])
         (Text (text_of "etag")) (PyList [])
  /\ Headers.removeHeader (Headers.mk [("etag", ["t"])]) (Text (text_of "ETag"))
     = Headers.removeHeader (Headers.mk [("etag", ["t"])])
         (Text (text_of "etag"))
  /\ _DictHeaders.__getitem__ (Headers.mk [("etag", ["t"])])
       (Text (text_of "ETag"))
     = _DictHeaders.__getitem__ (Headers.mk [("etag", ["t"])])
         (Text (text_of "etag"))
  /\ _DictHeaders.__delitem__ (Headers.mk [("etag", ["t"])])
       (Text (text_of "ETag"))
     = _DictHeaders.__delitem__ (Headers.mk [("etag", ["t"])])
         (Text (text_of "etag")).
Proof.
  split; [reflexivity |].
  apply (lookups_case_invariant (Headers.mk [("etag", ["t"])])
           (Text (text_of "ETag")) (Text (text_of "etag")) (PyList []) PyNone).
  reflexivity.
Defined.

Lemma latin1_encode_error (t : unicode) (e : exn) :
  latin1_encode t = Raise e -> e = UnicodeEncodeError.
Proof.
  induction t as [| c t IH]; simpl; [discriminate |].
  destruct (c <? 256)%N.
  - destruct (latin1_encode t) as [s |]; [discriminate |].
    cbn [bind]. intros He. apply IH.
    now apply (f_equal (fun r => match r with
                                 | Raise x => @Raise bytes x
                                 | Ok _ => Raise e
                                 end)) in He.
  - intros He.
    now apply (f_equal (fun r => match r with
                                 | Raise x => x
                                 | Ok _ => e
                                 end)) in He.
Qed.

(** X20.  A name whose lower case does not encode makes every method
    that looks it up raise the encoding error, [setRawHeaders] before it
    encodes any value: nothing is ever stored under such a name. *)
Theorem unencodable_name_raises
        (self : Headers.t) (name : pystr) (e : exn)
        (values : list pystr) (default : object) :
  storage_key name = Raise e ->
  e = UnicodeEncodeError
  /\ Headers.hasHeader self name = Raise e
  /\ Headers.getRawHeaders self name default = Raise e
  /\ Headers.setRawHeaders self name (PyList values) = Raise e
  /\ Headers.removeHeader self name = Raise e
  /\ _DictHeaders.__getitem__ self name = Raise e
  /\ _DictHeaders.__delitem__ self name = Raise e.
Proof.
  unfold storage_key. intros Hk. split.
  - destruct name as [b | t]; simpl in Hk; [discriminate |].
    now apply (latin1_encode_error (unicode_lower t)).
  - unfold _DictHeaders.__getitem__, _DictHeaders.__delitem__,
      Headers.hasHeader, Headers.getRawHeaders, Headers.setRawHeaders,
      Headers.removeHeader.
    rewrite Hk. repeat split; reflexivity.
Qed.

Lemma unencodable_name_raises_witness :
  storage_key (Text [8364%N]) = Raise UnicodeEncodeError
  /\ UnicodeEncodeError = UnicodeEncodeError
  /\ Headers.hasHeader (Headers.mk []) (Text [8364%N])
     = Raise UnicodeEncodeError
  /\ Headers.getRawHeaders (Headers.mk []) (Text [8364%N]) PyNone
     = Raise UnicodeEncodeError
  /\ Headers.setRawHeaders (Headers.mk []) (Text [8364%N])
       (PyList [Text [55296%N]])
     = Raise UnicodeEncodeError
  /\ Headers.removeHeader (Headers.mk []) (Text [8364%N])
     = Raise UnicodeEncodeError
  /\ _DictHeaders.__getitem__ (Headers.mk []) (Text [8364%N])
     = Raise UnicodeEncodeError
  /\ _DictHeaders.__delitem__ (Headers.mk []) (Text [8364%N])
     = Raise UnicodeEncodeError.
Proof.
  split; [reflexivity |].
  apply (unencodable_name_raises (Headers.mk []) (Text [8364%N])
           UnicodeEncodeError [Text [55296%N]] PyNone).
  reflexivity.
Defined.

(** X21.  For a name whose encoding is in ASCII, be it bytes or text,
    [addRawHeader] puts the value at the end of the sequence that the
    other methods see for the name, or makes it the only value of a new
    header; the header is present afterwards. *)
Theorem addRawHeader_ascii_name
        (self : Headers.t) (name value : pystr) (e v : bytes) :
  Headers._encodeName name = Ok e ->
  ascii_only e = true ->
  Headers._encodeValue value = Ok v ->
  exists self' k,
    Headers.addRawHeader self name value = Ok self'
    /\ storage_key name = Ok k
    /\ stored self' k
       = Some (match stored self k with
               | Some l => l ++ [v]
               | None => [v]
               end)
    /\ Headers.hasHeader self' name = Ok true.
Proof.
  intros He Ha Hv.
  assert (Hk : storage_key name = Ok (bytes_lower e)).
  { destruct name as [b | t].
    - simpl in He.
      apply (f_equal (fun r => match r with Ok x => x | Raise _ => e end)) in He.
      now subst e.
    - now apply storage_key_ascii_text. }
  destruct (addRawHeader_appends self name value e v He Hk Hv)
    as (self' & Hadd & Hst & _).
  exists self', (bytes_lower e).
  split; [exact Hadd |]. split; [exact Hk |]. split; [exact Hst |].
  now rewrite (hasHeader_key self' name (bytes_lower e) Hk), Hst.
Qed.

Lemma addRawHeader_ascii_name_witness :
  Headers._encodeName (Text (text_of "Set-Cookie")) = Ok "Set-Cookie"
  /\ ascii_only "Set-Cookie" = true
  /\ Headers._encodeValue (Text (text_of "b=2")) = Ok "b=2"
  /\ exists self' k,
       Headers.addRawHeader (Headers.mk [("set-cookie", ["a=1"])])
         (Text (text_of "Set-Cookie")) (Text (text_of "b=2")) = Ok self'
       /\ storage_key (Text (text_of "Set-Cookie")) = Ok k
       /\ stored self' k
          = Some (match stored (Headers.mk [("set-cookie", ["a=1"])]) k with
                  | Some l => l ++ ["b=2"]
                  | None => ["b=2"]
                  end)
       /\ Headers.hasHeader self' (Text (text_of "Set-Cookie")) = Ok true.
Proof.
  do 3 (split; [reflexivity |]).
  apply (addRawHeader_ascii_name (Headers.mk [("set-cookie", ["a=1"])])
           (Text (text_of "Set-Cookie")) (Text (text_of "b=2"))
           "Set-Cookie" "b=2");
    reflexivity.
Defined.

(* ================================================================== *)
(** * Equality of stores with a history *)
(* ================================================================== *)

(** X22.  Two stores that the constructor and the mutators produce are
    equal exactly when every key has the same sequence of values in both,
    whatever the order in which their headers were entered. *)
Theorem eq_same_sequences
        (raw1 raw2 : option (list (pystr * list pystr)))
        (calls1 calls2 : list call) (a0 a b0 b : Headers.t) :
  Headers.__init__ raw1 = Ok a0 -> run a0 calls1 = Ok a ->
  Headers.__init__ raw2 = Ok b0 -> run b0 calls2 = Ok b ->
  (Headers.__eq__ a b = true <-> forall k, stored a k = stored b k).
Proof.
  intros Ha0 Ha Hb0 Hb.
  apply eq_iff_same_mapping.
  - now destruct (history_keys raw1 calls1 a0 a Ha0 Ha).
  - now destruct (history_keys raw2 calls2 b0 b Hb0 Hb).
Qed.

Lemma eq_same_sequences_witness :
  Headers.__init__ (Some [(Bytes "A", [Bytes "1"]); (Bytes "B", [Bytes "2"])])
  = Ok (Headers.mk [("a", ["1"]); ("b", ["2"])])
  /\ run (Headers.mk [("a", ["1"]); ("b", ["2"])]) []
     = Ok (Headers.mk [("a", ["1"]); ("b", ["2"])])
  /\ Headers.__init__ None = Ok (Headers.mk [])
  /\ run (Headers.mk [])
       [AddRawHeader (Bytes "b") (Bytes "2");
        AddRawHeader (Bytes "a") (Bytes "1")]
     = Ok (Headers.mk [("b", ["2"]); ("a", ["1"])])
  /\ (Headers.__eq__ (Headers.mk [("a", ["1"]); ("b", ["2"])])
        (Headers.mk [("b", ["2"]); ("a", ["1"])]) = true
      <-> forall k,
            stored (Headers.mk [("a", ["1"]); ("b", ["2"])]) k
            = stored (Headers.mk [("b", ["2"]); ("a", ["1"])]) k).
Proof.
  do 4 (split; [reflexivity |]).
  apply (eq_same_sequences
           (Some [(Bytes "A", [Bytes "1"]); (Bytes "B", [Bytes "2"])]) None
           []
           [AddRawHeader (Bytes "b") (Bytes "2");
            AddRawHeader (Bytes "a") (Bytes "1")]
           (Headers.mk [("a", ["1"]); ("b", ["2"])])
           (Headers.mk [("a", ["1"]); ("b", ["2"])])
           (Headers.mk [])
           (Headers.mk [("b", ["2"]); ("a", ["1"])]));
    reflexivity.
Defined.

(** X23.  Two headers whose byte names differ by more than the case,
    added to such a store in either order, give two stores that compare
    equal. *)
Theorem addRawHeader_commutes
        (rawHeaders : option (list (pystr * list pystr)))
        (calls : list call) (self0 self : Headers.t)
        (n1 v1 n2 v2 : bytes) :
  Headers.__init__ rawHeaders = Ok self0 ->
  run self0 calls = Ok self ->
  String.eqb (bytes_lower n1) (bytes_lower n2) = false ->
  exists s12 s21,
    (s <- Headers.addRawHeader self (Bytes n1) (Bytes v1) ;;
     Headers.addRawHeader s (Bytes n2) (Bytes v2)) = Ok s12
    /\ (s <- Headers.addRawHeader self (Bytes n2) (Bytes v2) ;;
        Headers.addRawHeader s (Bytes n1) (Bytes v1)) = Ok s21
    /\ Headers.__eq__ s12 s21 = true.
Proof.
  intros Hinit Hrun Hne.
  apply addRawHeader_order_irrelevant.
  - now destruct (history_keys rawHeaders calls self0 self Hinit Hrun).
  - now apply String.eqb_neq.
Qed.

Lemma addRawHeader_commutes_witness :
  Headers.__init__ None = Ok (Headers.mk [])
  /\ run (Headers.mk []) [AddRawHeader (Bytes "Host") (Bytes "h")]
     = Ok (Headers.mk [("host", ["h"])])
  /\ String.eqb (bytes_lower "Accept") (bytes_lower "Host") = false
  /\ exists s12 s21,
       (s <- Headers.addRawHeader (Headers.mk [("host", ["h"])])
              (Bytes "Accept") (Bytes "a") ;;
        Headers.addRawHeader s (Bytes "Host") (Bytes "g")) = Ok s12
       /\ (s <- Headers.addRawHeader (Headers.mk [("host", ["h"])])
                 (Bytes "Host") (Bytes "g") ;;
           Headers.addRawHeader s (Bytes "Accept") (Bytes "a")) = Ok s21
       /\ Headers.__eq__ s12 s21 = true.
Proof.
  do 3 (split; [reflexivity |]).
  apply (addRawHeader_commutes None
           [AddRawHeader (Bytes "Host") (Bytes "h")]
           (Headers.mk []) (Headers.mk [("host", ["h"])])
           "Accept" "a" "Host" "g");
    reflexivity.
Defined.
